(** * Kubernetes-Job execution environment for custom actions

    A shallow embedding of [pkg/skaffold/actions/k8sjob/exec_env.go]:
    the construction of the execution environment, the composition of a
    Job manifest (base, overrides, defaults), the binding of containers to
    built artifacts and the batch assembly of actions.

    Go values are modelled as follows.
    - A [*T] that the code dereferences is an [option T]; dereferencing
      [None] panics.
    - A Go map is a [gmap]; a map field that may be [nil] is an
      [option (gmap _ _)].
    - A collaborator returning [(T, error)] returns [result T].
    - Calls to collaborators that live outside the file (cluster probe,
      log streamer, manifest loader, override applier) are recorded, in
      program order, in a trace of [event]s; the functions of the file run
      in the monad [M], which carries that trace together with an
      [outcome]: a returned value, a returned [error], or a panic. *)

From Stdlib Require Import ZArith Ascii String.
From stdpp Require Import base option list gmap strings fin_maps.

Open Scope string_scope.
Open Scope list_scope.

(** ** Errors, results and outcomes *)

(** A Go [error]: its message and, for [fmt.Errorf] with [%w], the error
    it wraps. *)
Inductive error : Type :=
| Error (msg : string)
| Wrapping (msg : string) (wrapped : error).

Definition errorString (e : error) : string :=
  match e with Error msg | Wrapping msg _ => msg end.

Definition Unwrap (e : error) : option error :=
  match e with Error _ => None | Wrapping _ w => Some w end.

(** [fmt.Errorf(pre + "%v" + post, v)] for a string [v]. *)
Definition Errorf_v (pre v post : string) : error :=
  Error (pre +:+ v +:+ post).

(** [fmt.Errorf(pre + "%w", err)]. *)
Definition Errorf_w (pre : string) (err : error) : error :=
  Wrapping (pre +:+ errorString err) err.

(** The pair [(T, error)] returned by a collaborator: the value is only
    read when the error is [nil]. *)
Definition result (A : Type) : Type := (A + error)%type.

Inductive outcome (A : Type) : Type :=
| Return (a : A)
| Fail (err : error)
| Panic (why : string).
Arguments Return {A} a.
Arguments Fail {A} err.
Arguments Panic {A} why.

Definition returned {A} (o : outcome A) : bool :=
  match o with Return _ => true | _ => false end.

(** ** Data of the imported packages *)

(** Modelled from the spec: package [graph] is not part of the file. A
    built artifact is "image name + resolved build tag". *)
Module graph.
Record Artifact : Type := { ImageName : string; Tag : string }.
End graph.

(** Modelled from the spec: the schema of package [latest] is not part of
    the file. An action configuration has a "name, ordered list of
    container declarations, execution timeout, fail-fast flag, optional
    Job-manifest path, optional override payload"; a container has a
    "declared image reference" and a "logical container/task name". The
    file dereferences [Timeout] and [IsFailFast], which are pointers; the
    cluster execution mode, which it reads fields of, is taken as a
    pointer too (an action for which it is always set is the case
    [Some _]). *)
Module latest.
Record VerifyContainer : Type :=
  { ContainerName : string;   (* VerifyContainer.Name *)
    Image : string }.

Record ActionConfig : Type :=
  { Timeout : option Z;       (* *int *)
    IsFailFast : option bool  (* *bool *) }.

Record KubernetesClusterVerifier : Type :=
  { Overrides : string; JobManifestPath : string }.

Record ActionExecutionModeConfig : Type :=
  { KubernetesClusterExecutionMode : option KubernetesClusterVerifier }.

Record Action : Type :=
  { Name : string;
    Config : ActionConfig;
    ExecutionModeConfig : ActionExecutionModeConfig;
    Containers : list VerifyContainer }.
End latest.

Module metav1.
Record ObjectMeta : Type :=
  { Name : string;
    Namespace : string;
    Labels : option (gmap string string) }.

Definition with_Namespace (ns : string) (m : ObjectMeta) : ObjectMeta :=
  {| Name := Name m; Namespace := ns; Labels := Labels m |}.

Definition with_Labels (ls : option (gmap string string)) (m : ObjectMeta)
  : ObjectMeta :=
  {| Name := Name m; Namespace := Namespace m; Labels := ls |}.
End metav1.

Module corev1.
Definition RestartPolicyNever : string := "Never".

Record EnvVar : Type := { Name : string; Value : string }.

Record PodSpec : Type :=
  { RestartPolicy : string;
    PodContainers : list (string * string) }.

Record PodTemplateSpec : Type :=
  { ObjectMeta : metav1.ObjectMeta; Spec : PodSpec }.

Definition with_RestartPolicy (p : string) (s : PodSpec) : PodSpec :=
  {| RestartPolicy := p; PodContainers := PodContainers s |}.

Definition with_ObjectMeta (m : metav1.ObjectMeta) (t : PodTemplateSpec)
  : PodTemplateSpec :=
  {| ObjectMeta := m; Spec := Spec t |}.

Definition with_Spec (s : PodSpec) (t : PodTemplateSpec) : PodTemplateSpec :=
  {| ObjectMeta := ObjectMeta t; Spec := s |}.
End corev1.

Module batchv1.
Record JobSpec : Type :=
  { BackoffLimit : option Z;  (* *int32 *)
    Template : corev1.PodTemplateSpec }.

Record Job : Type :=
  { ObjectMeta : metav1.ObjectMeta; Spec : JobSpec }.

Definition with_BackoffLimit (b : option Z) (s : JobSpec) : JobSpec :=
  {| BackoffLimit := b; Template := Template s |}.

Definition with_Template (t : corev1.PodTemplateSpec) (s : JobSpec) : JobSpec :=
  {| BackoffLimit := BackoffLimit s; Template := t |}.

Definition with_ObjectMeta (m : metav1.ObjectMeta) (j : Job) : Job :=
  {| ObjectMeta := m; Spec := Spec j |}.

Definition with_Spec (s : JobSpec) (j : Job) : Job :=
  {| ObjectMeta := ObjectMeta j; Spec := s |}.
End batchv1.

(** The paths the code reads and writes on a Job. *)
Definition jobLabels (j : batchv1.Job) : option (gmap string string) :=
  metav1.Labels (batchv1.ObjectMeta j).
Definition jobNamespace (j : batchv1.Job) : string :=
  metav1.Namespace (batchv1.ObjectMeta j).
Definition templateLabels (j : batchv1.Job) : option (gmap string string) :=
  metav1.Labels (corev1.ObjectMeta (batchv1.Template (batchv1.Spec j))).
Definition restartPolicy (j : batchv1.Job) : string :=
  corev1.RestartPolicy (corev1.Spec (batchv1.Template (batchv1.Spec j))).
Definition backoffLimit (j : batchv1.Job) : option Z :=
  batchv1.BackoffLimit (batchv1.Spec j).

Definition set_jobLabels (ls : option (gmap string string)) (j : batchv1.Job)
  : batchv1.Job :=
  batchv1.with_ObjectMeta (metav1.with_Labels ls (batchv1.ObjectMeta j)) j.

Definition set_jobNamespace (ns : string) (j : batchv1.Job) : batchv1.Job :=
  batchv1.with_ObjectMeta (metav1.with_Namespace ns (batchv1.ObjectMeta j)) j.

Definition set_template (f : corev1.PodTemplateSpec → corev1.PodTemplateSpec)
    (j : batchv1.Job) : batchv1.Job :=
  batchv1.with_Spec
    (batchv1.with_Template (f (batchv1.Template (batchv1.Spec j))) (batchv1.Spec j)) j.

Definition set_templateLabels (ls : option (gmap string string)) (j : batchv1.Job)
  : batchv1.Job :=
  set_template (λ t, corev1.with_ObjectMeta
                       (metav1.with_Labels ls (corev1.ObjectMeta t)) t) j.

Definition set_restartPolicy (p : string) (j : batchv1.Job) : batchv1.Job :=
  set_template (λ t, corev1.with_Spec
                       (corev1.with_RestartPolicy p (corev1.Spec t)) t) j.

Definition set_backoffLimit (b : option Z) (j : batchv1.Job) : batchv1.Job :=
  batchv1.with_Spec (batchv1.with_BackoffLimit b (batchv1.Spec j)) j.

(** A [*batchv1.Job]. *)
Abbreviation JobPtr := (option batchv1.Job).

(** A [runtime.Object]: the nil interface, a [*batchv1.Job], or a value of
    some other kind. *)
Inductive Object : Type :=
| ObjNil
| ObjJob (p : JobPtr)
| ObjOther (kind : string).

(** Modelled from the spec: [kubectl.CLI] is the "cluster-client handle:
    opaque, constructed once per environment from a namespace and base
    configuration"; the file reads its field [KubeContext]. *)
Module kubectl.
Record CLI : Type := { KubeContext : string }.
End kubectl.

Definition runIDLabel : string := "skaffold.dev/run-id".

(** ** The execution environment and its collaborators *)

(** Opaque handles: [context.Context], [io.Writer], [kubectl.Config],
    [*label.DefaultLabeller], [*k8sjoblogger.Logger] and
    [*tracker.JobTracker]. *)
Class Handles : Type :=
  { Ctx : Type;
    Writer : Type;
    KubectlConfig : Type;
    Labeller : Type;
    Logger : Type;
    Tracker : Type }.

Section Model.
Context {handles : Handles}.

Record ExecEnv : Type :=
  { logger : Logger;
    tracker : Tracker;
    kubectl : kubectl.CLI;
    namespace : string;
    labeller : Labeller;
    acsCfgByName : gmap string latest.Action;
    envVars : list corev1.EnvVar }.

(** Modelled from the spec: the task type and [NewTask] are declared in
    another file of the package. A task is "composed manifest + resolved
    artifact + cluster-client handle + namespace + back-reference to the
    environment", built from one container declaration. *)
Record Task : Type :=
  { taskCfg : latest.VerifyContainer;
    taskKubectl : kubectl.CLI;
    taskNamespace : string;
    taskArtifact : graph.Artifact;
    taskJobManifest : batchv1.Job;
    taskExecEnv : ExecEnv }.

Definition NewTask (c : latest.VerifyContainer) (k : kubectl.CLI) (ns : string)
    (art : graph.Artifact) (jm : batchv1.Job) (e : ExecEnv) : Task :=
  {| taskCfg := c; taskKubectl := k; taskNamespace := ns;
     taskArtifact := art; taskJobManifest := jm; taskExecEnv := e |}.

(** Modelled from the spec: [actions.Action] and [actions.NewAction] are
    declared in package [actions]. An action is "name + ordered list of
    Tasks + timeout + fail-fast flag". *)
Record Action : Type :=
  { actionName : string;
    actionTimeout : Z;
    actionIsFailFast : bool;
    actionTasks : list Task }.

Definition NewAction (name : string) (timeout : Z) (isFailFast : bool)
    (ts : list Task) : Action :=
  {| actionName := name; actionTimeout := timeout;
     actionIsFailFast := isFailFast; actionTasks := ts |}.

(** Functions of other packages that the file calls. *)
Record Collaborators : Type :=
  { NewCLI : KubectlConfig → string → kubectl.CLI;
    NewContainerTracker : Tracker;
    NewLogger : Ctx → Tracker → Labeller → string → Logger;
    FailIfClusterIsNotReachable : string → option error;
    GetGenericJob : JobPtr;
    LoadFromPath : string → result JobPtr;
    ApplyOverrides : JobPtr → string → result Object;
    GetRunID : Labeller → string }.

(** Calls with an effect outside the file, as they appear in a trace. *)
Inductive event : Type :=
| CallFailIfClusterIsNotReachable (kubeContext : string)
| CallLoggerStart (l : Logger) (ctx : Ctx) (out : Writer)
| CallRegisterArtifacts (l : Logger) (arts : list graph.Artifact)
| CallGetGenericJob
| CallLoadFromPath (path : string)
| CallApplyOverrides (job : JobPtr) (overrides : string).

Definition isRegisterArtifacts (ev : event) : bool :=
  match ev with CallRegisterArtifacts _ _ => true | _ => false end.

Definition isComposition (ev : event) : bool :=
  match ev with
  | CallGetGenericJob | CallLoadFromPath _ | CallApplyOverrides _ _ => true
  | _ => false
  end.

(** *** The monad of the file: an outcome and the trace so far *)

Definition M (A : Type) : Type := (outcome A * list event)%type.

Definition ret {A} (a : A) : M A := (Return a, []).

Definition bind {A B} (m : M A) (k : A → M B) : M B :=
  match m with
  | (Return a, t) => let '(r, t') := k a in (r, t ++ t')
  | (Fail err, t) => (Fail err, t)
  | (Panic why, t) => (Panic why, t)
  end.

Definition emit (ev : event) : M unit := (Return tt, [ev]).
Definition throw {A} (err : error) : M A := (Fail err, []).
Definition panic {A} (why : string) : M A := (Panic why, []).

Definition lift {A} (r : result A) : M A :=
  match r with inl a => ret a | inr err => throw err end.

(** [*p] *)
Definition deref {A} (p : option A) : M A :=
  match p with
  | Some a => ret a
  | None => panic "invalid memory address or nil pointer dereference"
  end.

End Model.

Notation "'let!' x ':=' m 'in' k" := (bind m (λ x, k))
  (at level 10, x name, m at level 100, k at level 200, only parsing).
Notation "'run!' m 'in' k" := (bind m (λ _, k))
  (at level 10, m at level 100, k at level 200, only parsing).

(** ** The functions of [exec_env.go] *)

Section ExecEnv.
Context {handles : Handles}.
Variable K : Collaborators.

(** [acsCfgByName[a.Name] = a] for each [a], in order. *)
Definition indexByName (acs : list latest.Action) : gmap string latest.Action :=
  foldl (λ m a, <[latest.Name a := a]> m) ∅ acs.

(** Go leaves the iteration order of [envMap] open; the model takes the
    order of [map_to_list]. *)
Definition newExecEnv (ctx : Ctx) (cfg : KubectlConfig) (labeller : Labeller)
    (namespace : string) (envMap : gmap string string)
    (acs : list latest.Action) : ExecEnv :=
  let namespace := if decide (namespace = EmptyString) then "default" else namespace in
  let kubectl := NewCLI K cfg namespace in
  let tracker := NewContainerTracker K in
  let logger := NewLogger K ctx tracker labeller (kubectl.KubeContext kubectl) in
  let acsCfgByName := indexByName acs in
  let envVars :=
    (λ kv, {| corev1.Name := kv.1; corev1.Value := kv.2 |}) <$> map_to_list envMap in
  {| kubectl := kubectl;
     logger := logger;
     tracker := tracker;
     namespace := namespace;
     labeller := labeller;
     acsCfgByName := acsCfgByName;
     envVars := envVars |}.

Definition getBaseJobManifest (e : ExecEnv) (jobManifestPath : string) : M JobPtr :=
  if decide (jobManifestPath = EmptyString) then
    run! emit CallGetGenericJob in
    ret (GetGenericJob K)
  else
    run! emit (CallLoadFromPath jobManifestPath) in
    lift (LoadFromPath K jobManifestPath).

(** The type assertion of [obj] to a Job pointer has the one-result
    form: it panics when the dynamic type of [obj] is another one. *)
Definition applyOverrides (e : ExecEnv) (job : JobPtr) (overrides : string)
  : M JobPtr :=
  if decide (overrides = EmptyString) then ret job
  else
    run! emit (CallApplyOverrides job overrides) in
    let! obj := lift (ApplyOverrides K job overrides) in
    match obj with
    | ObjJob p => ret p
    | ObjNil =>
        panic "interface conversion: runtime.Object is nil, not *v1.Job"
    | ObjOther kind =>
        panic ("interface conversion: runtime.Object is " +:+ kind
               +:+ ", not *v1.Job")
    end.

(** [job.Labels[k] = v] on a map already made non-nil. *)
Definition assignLabel (k v : string) (ls : option (gmap string string))
  : option (gmap string string) :=
  Some (<[k := v]> (default ∅ ls)).

(** The function updates [*job] in place and returns nothing; the model
    returns the updated [*job]. *)
Definition setDefaultValues (e : ExecEnv) (job : JobPtr) : M batchv1.Job :=
  let! j := deref job in
  let j := if jobLabels j is None then set_jobLabels (Some ∅) j else j in
  let j := if templateLabels j is None then set_templateLabels (Some ∅) j else j in
  let j := if decide (jobNamespace j = EmptyString)
           then set_jobNamespace (namespace e) j else j in
  let j := set_jobLabels
             (assignLabel runIDLabel (GetRunID K (labeller e)) (jobLabels j)) j in
  let j := set_templateLabels
             (assignLabel runIDLabel (GetRunID K (labeller e)) (templateLabels j)) j in
  let j := set_restartPolicy corev1.RestartPolicyNever j in
  let j := set_backoffLimit (Some 0%Z) j in
  ret j.

Definition getJobManifest (e : ExecEnv) (jobManifestPath overrides : string)
  : M batchv1.Job :=
  let! job := getBaseJobManifest e jobManifestPath in
  let! job := applyOverrides e job overrides in
  setDefaultValues e job.

Definition getArtifactToDeploy (e : ExecEnv)
    (builtArtifacts : gmap string graph.Artifact) (cfg : latest.VerifyContainer)
  : graph.Artifact :=
  let artToDeploy :=
    {| graph.ImageName := latest.Image cfg; graph.Tag := latest.Image cfg |} in
  match builtArtifacts !! latest.Image cfg with
  | Some ba =>
      {| graph.ImageName := graph.ImageName artToDeploy; graph.Tag := graph.Tag ba |}
  | None => artToDeploy
  end.

(** The loop over [aCfg.Containers] is a left fold on the accumulators
    [(ts, toTrack)]. *)
Definition createTasks (e : ExecEnv) (ctx : Ctx) (out : Writer)
    (aCfg : latest.Action) (jobManifest : batchv1.Job)
    (builtArtifacts : gmap string graph.Artifact)
  : list Task * list graph.Artifact :=
  foldl
    (λ '(ts, toTrack) cCfg,
       let art := getArtifactToDeploy e builtArtifacts cCfg in
       (ts ++ [NewTask cCfg (kubectl e) (namespace e) art jobManifest e],
        toTrack ++ [{| graph.ImageName := latest.Image cCfg;
                       graph.Tag := latest.ContainerName cCfg |}]))
    ([], []) (latest.Containers aCfg).

(** [builtArtifacts[b.ImageName] = b] for each [b], in order. *)
Definition indexByImageName (bs : list graph.Artifact) : gmap string graph.Artifact :=
  foldl (λ m b, <[graph.ImageName b := b]> m) ∅ bs.

(** The loop over [acsNames], from the accumulators [acs] and [toTrack]
    on; its result is the pair of accumulators when the loop ends. *)
Fixpoint createActions_loop (e : ExecEnv) (ctx : Ctx) (out : Writer)
    (builtArtifacts : gmap string graph.Artifact) (acsNames : list string)
    (acs : list Action) (toTrack : list graph.Artifact)
  : M (list Action * list graph.Artifact) :=
  match acsNames with
  | [] => ret (acs, toTrack)
  | aName :: rest =>
      match acsCfgByName e !! aName with
      | None =>
          throw (Errorf_v "action " aName " not found for k8s execution mode")
      | Some aCfg =>
          let! mode :=
            deref (latest.KubernetesClusterExecutionMode
                     (latest.ExecutionModeConfig aCfg)) in
          let jmp := latest.JobManifestPath mode in
          let o := latest.Overrides mode in
          let! jm := getJobManifest e jmp o in
          let '(ts, artifactsToTrack) :=
            createTasks e ctx out aCfg jm builtArtifacts in
          let! timeout := deref (latest.Timeout (latest.Config aCfg)) in
          let! isFailFast := deref (latest.IsFailFast (latest.Config aCfg)) in
          createActions_loop e ctx out builtArtifacts rest
            (acs ++ [NewAction (latest.Name aCfg) timeout isFailFast ts])
            (toTrack ++ artifactsToTrack)
      end
  end.

Definition createActions (e : ExecEnv) (ctx : Ctx) (out : Writer)
    (bs : list graph.Artifact) (acsNames : list string) : M (list Action) :=
  let builtArtifacts := indexByImageName bs in
  let! r := createActions_loop e ctx out builtArtifacts acsNames [] [] in
  let '(acs, toTrack) := r in
  run! emit (CallRegisterArtifacts (logger e) toTrack) in
  ret acs.

Definition PrepareActions (e : ExecEnv) (ctx : Ctx) (out : Writer)
    (allbuilds : list graph.Artifact) (acsNames : list string) : M (list Action) :=
  run! emit (CallFailIfClusterIsNotReachable (kubectl.KubeContext (kubectl e))) in
  match FailIfClusterIsNotReachable K (kubectl.KubeContext (kubectl e)) with
  | Some err => throw (Errorf_w "unable to connect to Kubernetes: " err)
  | None =>
      run! emit (CallLoggerStart (logger e) ctx out) in
      createActions e ctx out allbuilds acsNames
  end.

Definition Cleanup (e : ExecEnv) (ctx : Ctx) (out : Writer) : M (option error) :=
  ret None.

Definition Stop (e : ExecEnv) : M unit := ret tt.
End ExecEnv.

(** ** What the specification calls things *)

Section Vocabulary.
Context {handles : Handles}.
Variable K : Collaborators.

(** The invariants of a composed manifest that do not depend on the
    environment's namespace, for the run identifier [runID]. *)
Definition defaulted (runID : string) (j : batchv1.Job) : Prop :=
  (∃ ls, jobLabels j = Some ls ∧ ls !! runIDLabel = Some runID) ∧
  (∃ ls, templateLabels j = Some ls ∧ ls !! runIDLabel = Some runID) ∧
  restartPolicy j = "Never" ∧
  backoffLimit j = Some 0%Z.

(** The tracked artifact of a container: (declared image name, logical
    name of the container). *)
Definition trackedArtifact (c : latest.VerifyContainer) : graph.Artifact :=
  {| graph.ImageName := latest.Image c; graph.Tag := latest.ContainerName c |}.

(** The tracked artifacts of all the actions named in [names], in order;
    a name the registry does not know contributes nothing. *)
Definition accumulated (registry : gmap string latest.Action)
    (names : list string) : list graph.Artifact :=
  flat_map
    (λ n, match registry !! n with
          | Some aCfg => trackedArtifact <$> latest.Containers aCfg
          | None => []
          end)
    names.

Definition neverRegisters (tr : list event) : Prop :=
  Forall (λ ev, isRegisterArtifacts ev = false) tr.

(** [RegisterArtifacts] is the last call of the trace, made on [l] with
    [arts], and there is no other call of it. *)
Definition registersOnceAtEnd (l : Logger) (arts : list graph.Artifact)
    (tr : list event) : Prop :=
  ∃ before, tr = before ++ [CallRegisterArtifacts l arts] ∧ neverRegisters before.

(** How a call ended without a value: with an error, or with a panic. *)
Definition failure {A} (o : outcome A) : option (error + string) :=
  match o with
  | Return _ => None
  | Fail err => Some (inl err)
  | Panic why => Some (inr why)
  end.

(** The last entry of [bs] for the image [name]. *)
Definition lastBuilt (name : string) (bs : list graph.Artifact)
  : option graph.Artifact :=
  last (filter (λ b, graph.ImageName b = name) bs).

(** The outcome of composing the manifest of the action [aCfg]; [None]
    when the cluster execution mode of the action is not set. *)
Definition composition (e : ExecEnv) (aCfg : latest.Action)
  : option (outcome batchv1.Job) :=
  mode ← latest.KubernetesClusterExecutionMode (latest.ExecutionModeConfig aCfg);
  Some (getJobManifest K e
          (latest.JobManifestPath mode) (latest.Overrides mode)).1.

(** The name [n] can be assembled into an action: the registry has it,
    its manifest composes, and its timeout and fail-fast flag are set. *)
Definition assemblable (e : ExecEnv) (n : string) : bool :=
  match acsCfgByName e !! n with
  | None => false
  | Some aCfg =>
      match composition e aCfg with
      | Some (Return _) =>
          bool_decide (is_Some (latest.Timeout (latest.Config aCfg))) &&
          bool_decide (is_Some (latest.IsFailFast (latest.Config aCfg)))
      | _ => false
      end
  end.

(** The action [act] is the one the code assembles for the name [n]. *)
Definition assembled (e : ExecEnv) (built : gmap string graph.Artifact)
    (n : string) (act : Action) : Prop :=
  ∃ aCfg jm timeout isFailFast,
    acsCfgByName e !! n = Some aCfg ∧
    composition e aCfg = Some (Return jm) ∧
    latest.Timeout (latest.Config aCfg) = Some timeout ∧
    latest.IsFailFast (latest.Config aCfg) = Some isFailFast ∧
    act = NewAction (latest.Name aCfg) timeout isFailFast
            ((λ c, NewTask c (kubectl e) (namespace e)
                     (getArtifactToDeploy e built c) jm e)
               <$> latest.Containers aCfg).

(** The body of the loop of [createActions] for one name: the action it
    appends to [acs] and the tracked artifacts it appends to [toTrack]. *)
Definition assembleOne (e : ExecEnv) (ctx : Ctx) (out : Writer)
    (builtArtifacts : gmap string graph.Artifact) (aName : string)
  : M (Action * list graph.Artifact) :=
  match acsCfgByName e !! aName with
  | None =>
      throw (Errorf_v "action " aName " not found for k8s execution mode")
  | Some aCfg =>
      let! mode :=
        deref (latest.KubernetesClusterExecutionMode
                 (latest.ExecutionModeConfig aCfg)) in
      let! jm := getJobManifest K e (latest.JobManifestPath mode)
                   (latest.Overrides mode) in
      let tasks := createTasks e ctx out aCfg jm builtArtifacts in
      let! timeout := deref (latest.Timeout (latest.Config aCfg)) in
      let! isFailFast := deref (latest.IsFailFast (latest.Config aCfg)) in
      ret (NewAction (latest.Name aCfg) timeout isFailFast tasks.1, tasks.2)
  end.

(** The action [act] carries what the registry declares for the name
    [n]: name, timeout, fail-fast flag, and one task per container, in
    the order of the declarations. *)
Definition carries (e : ExecEnv) (n : string) (act : Action) : Prop :=
  ∃ aCfg,
    acsCfgByName e !! n = Some aCfg ∧
    actionName act = latest.Name aCfg ∧
    latest.Timeout (latest.Config aCfg) = Some (actionTimeout act) ∧
    latest.IsFailFast (latest.Config aCfg) = Some (actionIsFailFast act) ∧
    taskCfg <$> actionTasks act = latest.Containers aCfg.

(** The error of the lookup of [aName]. *)
Definition notFound (aName : string) : error :=
  Error ("action " +:+ aName +:+ " not found for k8s execution mode").

(** The build of [names] fails at its first name absent from the
    registry, with the error of that name. *)
Definition failsAtFirstAbsent (e : ExecEnv) (names : list string)
    (m : M (list Action)) : Prop :=
  ∀ before missing after,
    names = before ++ missing :: after →
    Forall (λ n, is_Some (acsCfgByName e !! n)) before →
    acsCfgByName e !! missing = None →
    m.1 = Fail (notFound missing).

(** Batch atomicity of a build [m] of the names [names]: when it returns,
    every name was assembled and the accumulated tracked artifacts are
    registered once, by the last call; when it does not, nothing is
    registered. *)
Definition batchAtomic (e : ExecEnv) (bs : list graph.Artifact)
    (names : list string) (m : M (list Action)) : Prop :=
  match m.1 with
  | Return acs =>
      Forall2 (assembled e (indexByImageName bs)) names acs ∧
      registersOnceAtEnd (logger e) (accumulated (acsCfgByName e) names) m.2
  | _ => neverRegisters m.2
  end.
End Vocabulary.

(** ** A concrete environment

    Scenario A of the specification (action "verify", one container
    [{image: app, name: t1}], generic manifest, no overrides), next to an
    action whose manifest path cannot be loaded, an action whose overrides
    turn the manifest into a Pod, and an action with a stored manifest that
    sets every defaulted field itself. *)

Module Scenario.
Definition handles : Handles :=
  {| Ctx := unit;
     Writer := string;          (* the name of the sink *)
     KubectlConfig := string;   (* the kube context *)
     Labeller := string;        (* the run identifier *)
     Logger := unit;
     Tracker := unit |}.

#[local] Existing Instance handles.

Definition meta (ns : string) (ls : option (gmap string string))
  : metav1.ObjectMeta :=
  {| metav1.Name := EmptyString; metav1.Namespace := ns; metav1.Labels := ls |}.

Definition job (ns : string) (ls : option (gmap string string))
    (policy : string) (backoff : option Z) : batchv1.Job :=
  {| batchv1.ObjectMeta := meta ns ls;
     batchv1.Spec :=
       {| batchv1.BackoffLimit := backoff;
          batchv1.Template :=
            {| corev1.ObjectMeta := meta EmptyString ls;
               corev1.Spec :=
                 {| corev1.RestartPolicy := policy;
                    corev1.PodContainers := [] |} |} |} |}.

Definition genericJob : batchv1.Job := job EmptyString None EmptyString None.

Definition storedJob : batchv1.Job :=
  job "prod" (Some {[ "skaffold.dev/run-id" := "stale" ]}) "Always" (Some 6%Z).

Definition quote : string := String "034"%char EmptyString.

(** The merge patch [{"apiVersion":"v1","kind":"Pod"}]. *)
Definition podPatch : string :=
  "{" +:+ quote +:+ "apiVersion" +:+ quote +:+ ":" +:+ quote +:+ "v1" +:+ quote
  +:+ "," +:+ quote +:+ "kind" +:+ quote +:+ ":" +:+ quote +:+ "Pod" +:+ quote
  +:+ "}".

Definition K0 : @Collaborators handles :=
  {| NewCLI := λ cfg _, {| kubectl.KubeContext := cfg |};
     NewContainerTracker := tt;
     NewLogger := λ _ _ _ _, tt;
     FailIfClusterIsNotReachable :=
       λ kc, if decide (kc = "down") then Some (Error "connection refused")
             else None;
     GetGenericJob := Some genericJob;
     LoadFromPath :=
       λ p, if decide (p = "job.yaml") then inl (Some storedJob)
            else inr (Error ("open " +:+ p +:+ ": no such file or directory"));
     ApplyOverrides :=
       λ j o, if decide (o = podPatch) then inl (ObjOther "*v1.Pod")
              else inl (ObjJob j);
     GetRunID := λ l, l |}.

Definition action (name path overrides : string)
    (cs : list latest.VerifyContainer) : latest.Action :=
  {| latest.Name := name;
     latest.Config :=
       {| latest.Timeout := Some 10%Z; latest.IsFailFast := Some true |};
     latest.ExecutionModeConfig :=
       {| latest.KubernetesClusterExecutionMode :=
            Some {| latest.Overrides := overrides;
                    latest.JobManifestPath := path |} |};
     latest.Containers := cs |}.

Definition t1 : latest.VerifyContainer :=
  {| latest.ContainerName := "t1"; latest.Image := "app" |}.
Definition t2 : latest.VerifyContainer :=
  {| latest.ContainerName := "t2"; latest.Image := "db" |}.

Definition verify : latest.Action := action "verify" EmptyString EmptyString [t1].
Definition stored : latest.Action := action "stored" "job.yaml" EmptyString [t1; t2].
Definition broken : latest.Action :=
  action "broken" "/no/such/job.yaml" EmptyString [t1].
Definition patched : latest.Action := action "patched" EmptyString podPatch [t1].

Definition e0 : @ExecEnv handles :=
  newExecEnv K0 tt "minikube" "run-1" EmptyString ∅
    [verify; stored; broken; patched].

Definition down : @ExecEnv handles :=
  newExecEnv K0 tt "down" "run-1" EmptyString ∅ [verify].

Definition built : list graph.Artifact :=
  [ {| graph.ImageName := "app"; graph.Tag := "v0" |};
    {| graph.ImageName := "db"; graph.Tag := "db:7" |};
    {| graph.ImageName := "app"; graph.Tag := "v1" |} ].
End Scenario.


(** ** Further actions for the concrete environment *)

Module EdgeCases.
Import Scenario.
#[local] Existing Instance Scenario.handles.

(** An action whose configuration carries no timeout. *)
Definition untimed : latest.Action :=
  {| latest.Name := "untimed";
     latest.Config := {| latest.Timeout := None; latest.IsFailFast := Some false |};
     latest.ExecutionModeConfig :=
       {| latest.KubernetesClusterExecutionMode :=
            Some {| latest.Overrides := EmptyString;
                    latest.JobManifestPath := "job.yaml" |} |};
     latest.Containers := [t2] |}.

(** A second declaration of "verify", with another container. *)
Definition verifyAgain : latest.Action := action "verify" "job.yaml" "{}" [t2].

Definition e1 : @ExecEnv handles :=
  newExecEnv K0 tt "minikube" "run-1" "staging" {[ "LOG" := "debug" ]}
    [verify; stored; untimed; verifyAgain].
End EdgeCases.

(** * The tagger multiplexer

    A shallow embedding of [tagger_mux.go] of package [tag]: the choice of
    a tagger for a tag policy, the components of a custom template, the
    construction of the multiplexer over the pipelines, and its two
    methods. The constructors of the taggers are functions of other files
    and are pure; a call of the method [GenerateTag] of a tagger is
    recorded in a trace. *)

(** ** Calls of other files, in general

    An outcome together with the calls made so far, for any type [E] of
    calls. *)
Definition traced (E A : Type) : Type := (outcome A * list E)%type.

Definition tret {E A} (a : A) : traced E A := (Return a, []).

Definition tbind {E A B} (m : traced E A) (k : A → traced E B) : traced E B :=
  match m with
  | (Return a, t) => let '(r, t') := k a in (r, t ++ t')
  | (Fail err, t) => (Fail err, t)
  | (Panic why, t) => (Panic why, t)
  end.

Definition tthrow {E A} (err : error) : traced E A := (Fail err, []).
Definition tpanic {E A} (why : string) : traced E A := (Panic why, []).

(** The call [ev], which ends as [o]. *)
Definition tcall {E A} (ev : E) (o : outcome A) : traced E A := (o, [ev]).

Notation "'do!' x ':=' m 'in' k" := (tbind m (λ x, k))
  (at level 10, x name, m at level 100, k at level 200, only parsing).

(** Opaque handles: a tagger made by a constructor of another file, the
    artifact graph, and [context.Context]. *)
Class TagHandles : Type :=
  { TaggerHandle : Type;
    ArtifactGraph : Type;
    TagCtx : Type }.

Module tag.

(** Modelled from the spec: the schema of package [latest] is not part of
    the file. These are the fields the file reads: of a build artifact,
    its image name; of a tag policy, one pointer per tagging strategy; of
    a custom template, its template and its named components. *)
Record Artifact : Type := { ImageName : string }.

Record EnvTemplateTaggerT : Type := { Template : string }.

Record GitTaggerT : Type :=
  { Prefix : string; Variant : string; IgnoreChanges : bool }.

Record DateTimeTaggerT : Type := { Format : string; TimeZone : string }.

#[warnings="-register-all"]
Inductive TagPolicy : Type :=
  Build_TagPolicy {
    EnvTemplateTagger : option EnvTemplateTaggerT;
    ShaTagger : option unit;
    GitTagger : option GitTaggerT;
    DateTimeTagger : option DateTimeTaggerT;
    InputDigest : option unit;
    CustomTemplateTagger : option CustomTemplateTaggerT }
with CustomTemplateTaggerT : Type :=
  Build_CustomTemplateTaggerT {
    CustomTemplateTagger_Template : string;
    Components : list TaggerComponent }
with TaggerComponent : Type :=
  Build_TaggerComponent {
    Name : string;
    Component : TagPolicy }.

Record BuildConfig : Type :=
  { TagPolicies : list TagPolicy; Artifacts : list Artifact }.

Record Pipeline : Type := { Build : BuildConfig }.

(** Modelled from the spec: the run context is declared in package
    [runcontext]; its fields stand for what its methods [CustomTag],
    [GetPipelines] and [Artifacts] return. *)
Record RunContext : Type :=
  { CustomTag : string;
    GetPipelines : list Pipeline;
    AllArtifacts : list Artifact }.

Section Model.
Context {handles : TagHandles}.

(** A value of the interface [Tagger]: nil, one of the two taggers the
    file builds itself, or a tagger made by a constructor of another
    file. *)
Inductive Tagger : Type :=
| NilTagger
| CustomTagTagger (Tag : string)   (* &CustomTag{Tag: ...} *)
| ChecksumTagger                   (* &ChecksumTagger{} *)
| Foreign (h : TaggerHandle).

Record TaggerMux : Type :=
  { taggers : list Tagger;
    byImageName : gmap string Tagger;
    allTaggers : list (list Tagger);
    allTaggersByImageName : gmap string (list Tagger) }.

(** Functions of other files and packages that the file calls. A
    constructor returns its pair of results as it is, since the file
    reads the tagger of some pairs without looking at the error. *)
Record Collaborators : Type :=
  { NewEnvTemplateTagger : string → Tagger * option error;
    NewGitCommit : string → string → bool → Tagger * option error;
    NewDateTimeTagger : string → string → Tagger;
    ToArtifactGraph : list Artifact → ArtifactGraph;
    NewInputDigestTagger : RunContext → ArtifactGraph → Tagger * option error;
    NewCustomTemplateTagger :
      RunContext → string → gmap string Tagger → Tagger * option error;
    (* the method GenerateTag of a tagger that is not nil *)
    taggerGenerateTag : Tagger → TagCtx → Artifact → outcome string;
    (* the verbs %q of a string and %+v of a policy *)
    Quote : string → string;
    FormatPolicyPtr : TagPolicy → string;
    FormatPolicy : TagPolicy → string }.

Inductive call : Type :=
| CallGenerateTag (tagger : Tagger) (ctx : TagCtx) (image : Artifact).

Variable K : Collaborators.

(** [tagger.GenerateTag(ctx, image)] *)
Definition callGenerateTag (tagger : Tagger) (ctx : TagCtx) (image : Artifact)
  : traced call string :=
  match tagger with
  | NilTagger => tpanic "invalid memory address or nil pointer dereference"
  | _ => tcall (CallGenerateTag tagger ctx image)
           (taggerGenerateTag K tagger ctx image)
  end.

Definition GenerateTag (t : TaggerMux) (ctx : TagCtx) (image : Artifact)
  : traced call string :=
  match byImageName t !! ImageName image with
  | None =>
      tthrow (Error ("no valid tagger found for artifact: "
                     +:+ Quote K (ImageName image)))
  | Some tagger => callGenerateTag tagger ctx image
  end.

(** The loop of [GenerateTags] over the taggers found, on the
    accumulator [tags]. *)
Fixpoint GenerateTags_loop (ctx : TagCtx) (image : Artifact)
    (taggers : list Tagger) (tags : list string) : traced call (list string) :=
  match taggers with
  | [] => tret tags
  | tagger :: rest =>
      do! tag := callGenerateTag tagger ctx image in
      GenerateTags_loop ctx image rest (tags ++ [tag])
  end.

Definition GenerateTags (t : TaggerMux) (ctx : TagCtx) (image : Artifact)
  : traced call (list string) :=
  match allTaggersByImageName t !! ImageName image with
  | None =>
      tthrow (Error ("no valid taggers found for artifact: "
                     +:+ Quote K (ImageName image)))
  | Some taggers => GenerateTags_loop ctx image taggers []
  end.

(** The switch of [CreateComponents] for the component [c] named [name]:
    the tagger to store under [name], or the error to return. The errors
    of the constructors are dropped. *)
Definition CreateComponents_case (runCtx : RunContext) (name : string)
    (c : TagPolicy) : result Tagger :=
  match EnvTemplateTagger c with
  | Some et => inl (NewEnvTemplateTagger K (Template et)).1
  | None =>
  match ShaTagger c with
  | Some _ => inl ChecksumTagger
  | None =>
  match GitTagger c with
  | Some g => inl (NewGitCommit K (Prefix g) (Variant g) (IgnoreChanges g)).1
  | None =>
  match DateTimeTagger c with
  | Some d => inl (NewDateTimeTagger K (Format d) (TimeZone d))
  | None =>
  match InputDigest c with
  | Some _ =>
      let graph := ToArtifactGraph K (AllArtifacts runCtx) in
      inl (NewInputDigestTagger K runCtx graph).1
  | None =>
  match CustomTemplateTagger c with
  | Some _ =>
      inr (Error ("nested customTemplate components are not supported in skaffold ("
                  +:+ name +:+ ")"))
  | None =>
      inr (Error ("unknown component for custom template: " +:+ name +:+ " "
                  +:+ FormatPolicy K c))
  end end end end end end.

(** The loop of [CreateComponents] over [t.Components], on the map
    [components]. *)
Fixpoint CreateComponents_loop (runCtx : RunContext)
    (cs : list TaggerComponent) (components : gmap string Tagger)
  : result (gmap string Tagger) :=
  match cs with
  | [] => inl components
  | taggerComponent :: rest =>
      let name := Name taggerComponent in
      let c := Component taggerComponent in
      match components !! name with
      | Some _ => inr (Error ("multiple components with name " +:+ name))
      | None =>
          match CreateComponents_case runCtx name c with
          | inl tagger =>
              CreateComponents_loop runCtx rest (<[name := tagger]> components)
          | inr err => inr err
          end
      end
  end.

Definition CreateComponents (runCtx : RunContext) (t : CustomTemplateTaggerT)
  : result (gmap string Tagger) :=
  CreateComponents_loop runCtx (Components t) ∅.

(** The pair [(Tagger, error)] that [getTagger] returns. *)
Definition getTagger (runCtx : RunContext) (t : TagPolicy)
  : Tagger * option error :=
  if decide (CustomTag runCtx ≠ EmptyString) then
    (CustomTagTagger (CustomTag runCtx), None)
  else
  match EnvTemplateTagger t with
  | Some et => NewEnvTemplateTagger K (Template et)
  | None =>
  match ShaTagger t with
  | Some _ => (ChecksumTagger, None)
  | None =>
  match GitTagger t with
  | Some g => NewGitCommit K (Prefix g) (Variant g) (IgnoreChanges g)
  | None =>
  match DateTimeTagger t with
  | Some d => (NewDateTimeTagger K (Format d) (TimeZone d), None)
  | None =>
  match InputDigest t with
  | Some _ =>
      let graph := ToArtifactGraph K (AllArtifacts runCtx) in
      NewInputDigestTagger K runCtx graph
  | None =>
  match CustomTemplateTagger t with
  | Some ct =>
      match CreateComponents runCtx ct with
      | inr err => (NilTagger, Some (Errorf_w "creating components: " err))
      | inl components =>
          NewCustomTemplateTagger K runCtx (CustomTemplateTagger_Template ct)
            components
      end
  | None =>
      (NilTagger,
       Some (Error ("unknown tagger for strategy " +:+ FormatPolicyPtr K t)))
  end end end end end end.

(** The loop of [getTaggers] over the policies, on the slice [taggers]. *)
Fixpoint getTaggers_loop (runCtx : RunContext) (t : list TagPolicy)
    (taggers : list Tagger) : result (list Tagger) :=
  match t with
  | [] => inl taggers
  | tagPolicy :: rest =>
      match getTagger runCtx tagPolicy with
      | (_, Some err) => inr err
      | (tagger, None) => getTaggers_loop runCtx rest (taggers ++ [tagger])
      end
  end.

Definition getTaggers (runCtx : RunContext) (t : list TagPolicy)
  : result (list Tagger) :=
  getTaggers_loop runCtx t [].

(** The inner loop of [NewTaggerMux] over the artifacts of a pipeline, on
    the two maps. *)
Definition NewTaggerMux_artifacts (t : Tagger) (taggers : list Tagger)
    (artifacts : list Artifact)
    (maps : gmap string Tagger * gmap string (list Tagger))
  : gmap string Tagger * gmap string (list Tagger) :=
  foldl (λ '(m, mAllTaggers) a,
           (<[ImageName a := t]> m, <[ImageName a := taggers]> mAllTaggers))
        maps artifacts.

(** The loop of [NewTaggerMux] over the pipelines, on the two maps and
    the two slices. [taggers[0]] panics on an empty slice. *)
Fixpoint NewTaggerMux_loop (runCtx : RunContext) (pipelines : list Pipeline)
    (m : gmap string Tagger) (sl : list Tagger)
    (allTaggers : list (list Tagger)) (mAllTaggers : gmap string (list Tagger))
  : outcome TaggerMux :=
  match pipelines with
  | [] =>
      Return {| taggers := sl; byImageName := m; allTaggers := allTaggers;
                allTaggersByImageName := mAllTaggers |}
  | p :: rest =>
      match getTaggers runCtx (TagPolicies (Build p)) with
      | inr err => Fail (Errorf_w "creating tagger: " err)
      | inl taggers =>
          match taggers with
          | [] => Panic "index out of range [0] with length 0"
          | t :: _ =>
              let '(m, mAllTaggers) :=
                NewTaggerMux_artifacts t taggers (Artifacts (Build p))
                  (m, mAllTaggers) in
              NewTaggerMux_loop runCtx rest m (sl ++ [t])
                (allTaggers ++ [taggers]) mAllTaggers
          end
      end
  end.

(** [make([]Tagger, len(pipelines))] is a slice of that many nil
    taggers, and [make([][]Tagger, len(pipelines))] one of that many nil
    slices; the loop appends to them. *)
Definition NewTaggerMux (runCtx : RunContext) : outcome TaggerMux :=
  let pipelines := GetPipelines runCtx in
  NewTaggerMux_loop runCtx pipelines ∅
    (replicate (length pipelines) NilTagger)
    (replicate (length pipelines) []) ∅.
End Model.
End tag.

(** ** Vocabulary for the multiplexer *)

Section TagVocabulary.
Context {handles : TagHandles}.
Variable K : tag.Collaborators.

(** The taggers of the pipeline [p]: one per tag policy, when all of them
    can be made. *)
Definition taggersOf (runCtx : tag.RunContext) (p : tag.Pipeline)
  : list tag.Tagger :=
  match tag.getTaggers K runCtx (tag.TagPolicies (tag.Build p)) with
  | inl ts => ts
  | inr _ => []
  end.

(** The pipeline [p] declares an artifact of the image [img]. *)
Definition declares (img : string) (p : tag.Pipeline) : Prop :=
  img ∈ tag.ImageName <$> tag.Artifacts (tag.Build p).

#[global] Instance declares_dec img p : Decision (declares img p).
Proof. unfold declares. apply _. Defined.

(** How the pipeline [p] stops [NewTaggerMux], if it does: with the
    wrapped error of its first policy that fails, or with the panic of
    the index on its empty slice of taggers. *)
Definition stopsAt (runCtx : tag.RunContext) (p : tag.Pipeline)
  : option (error + string) :=
  match tag.getTaggers K runCtx (tag.TagPolicies (tag.Build p)) with
  | inr err => Some (inl (Errorf_w "creating tagger: " err))
  | inl [] => Some (inr "index out of range [0] with length 0")
  | inl (_ :: _) => None
  end.

(** The calls of [GenerateTag] on the taggers [ts], in order. *)
Definition generateTagCalls (ctx : TagCtx) (image : tag.Artifact)
    (ts : list tag.Tagger) : list tag.call :=
  (λ tagger, tag.CallGenerateTag tagger ctx image) <$> ts.

(** The tagger [tagger] gives the tag [tg] for [image]. *)
Definition gives (ctx : TagCtx) (image : tag.Artifact) (tagger : tag.Tagger)
    (tg : string) : Prop :=
  tagger ≠ tag.NilTagger ∧ tag.taggerGenerateTag K tagger ctx image = Return tg.

(** The three errors [CreateComponents] makes. *)
Definition componentError (name : string) (c : tag.TagPolicy) (err : error)
  : Prop :=
  err = Error ("multiple components with name " +:+ name) ∨
  err = Error ("nested customTemplate components are not supported in skaffold ("
               +:+ name +:+ ")") ∨
  err = Error ("unknown component for custom template: " +:+ name +:+ " "
               +:+ tag.FormatPolicy K c).
End TagVocabulary.

(** ** A concrete run context *)

Module TagScenario.
Definition handles : TagHandles :=
  {| TaggerHandle := string; ArtifactGraph := unit; TagCtx := unit |}.
#[local] Existing Instance handles.

(** Constructors that make a tagger named after its arguments; an empty
    template is refused. The method gives the name of the tagger and the
    image name as the tag; the git tagger fails. *)
Definition K0 : tag.Collaborators :=
  {| tag.NewEnvTemplateTagger :=
       λ t, if decide (t = EmptyString)
            then (tag.NilTagger, Some (Error "empty template"))
            else (tag.Foreign ("env:" +:+ t), None);
     tag.NewGitCommit := λ p v _, (tag.Foreign ("git:" +:+ p), None);
     tag.NewDateTimeTagger := λ f z, tag.Foreign ("date:" +:+ f);
     tag.ToArtifactGraph := λ _, tt;
     tag.NewInputDigestTagger := λ _ _, (tag.Foreign "digest", None);
     tag.NewCustomTemplateTagger := λ _ t _, (tag.Foreign ("custom:" +:+ t), None);
     tag.taggerGenerateTag :=
       λ tagger _ image,
         match tagger with
         | tag.NilTagger => Panic "nil"
         | tag.CustomTagTagger t => Return t
         | tag.ChecksumTagger => Return (tag.ImageName image +:+ ":sha")
         | tag.Foreign h =>
             if decide (h = "git:v") then Fail (Error "not a git repository")
             else Return (tag.ImageName image +:+ ":" +:+ h)
         end;
     tag.Quote := λ s, Scenario.quote +:+ s +:+ Scenario.quote;
     tag.FormatPolicyPtr := λ _, "&{}";
     tag.FormatPolicy := λ _, "{}" |}.

Definition noPolicy : tag.TagPolicy :=
  tag.Build_TagPolicy None None None None None None.
Definition sha : tag.TagPolicy :=
  tag.Build_TagPolicy None (Some tt) None None None None.
Definition git : tag.TagPolicy :=
  tag.Build_TagPolicy None None
    (Some {| tag.Prefix := "v"; tag.Variant := "Tags"; tag.IgnoreChanges := false |})
    None None None.
Definition env (t : string) : tag.TagPolicy :=
  tag.Build_TagPolicy (Some {| tag.Template := t |}) None None None None None.
Definition custom (cs : list tag.TaggerComponent) : tag.TagPolicy :=
  tag.Build_TagPolicy None None None None None
    (Some (tag.Build_CustomTemplateTaggerT "{{.A}}-{{.B}}" cs)).

Definition pipeline (ps : list tag.TagPolicy) (imgs : list string) : tag.Pipeline :=
  {| tag.Build := {| tag.TagPolicies := ps;
                     tag.Artifacts := (λ i, {| tag.ImageName := i |}) <$> imgs |} |}.

Definition components : list tag.TaggerComponent :=
  [ tag.Build_TaggerComponent "A" sha;
    tag.Build_TaggerComponent "B" (env EmptyString) ].

Definition runCtx (customTag : string) (ps : list tag.Pipeline) : tag.RunContext :=
  {| tag.CustomTag := customTag; tag.GetPipelines := ps; tag.AllArtifacts := [] |}.

Definition pipelines : list tag.Pipeline :=
  [ pipeline [sha; git] ["app"; "db"];
    pipeline [git; custom components] ["app"] ].

Definition app : tag.Artifact := {| tag.ImageName := "app" |}.
Definition db : tag.Artifact := {| tag.ImageName := "db" |}.

Definition foreign (h : string) : tag.Tagger := tag.Foreign h.

(** The multiplexer of the two pipelines of the scenario. *)
Definition mux0 : tag.TaggerMux :=
  {| tag.taggers :=
       [tag.NilTagger; tag.NilTagger; tag.ChecksumTagger; foreign "git:v"];
     tag.byImageName :=
       <["app" := foreign "git:v"]> (<["db" := tag.ChecksumTagger]> ∅);
     tag.allTaggers :=
       [[]; []; [tag.ChecksumTagger; foreign "git:v"];
        [foreign "git:v"; foreign "custom:{{.A}}-{{.B}}"]];
     tag.allTaggersByImageName :=
       <["app" := [foreign "git:v"; foreign "custom:{{.A}}-{{.B}}"]]>
         (<["db" := [tag.ChecksumTagger; foreign "git:v"]]> ∅) |}.


(** A multiplexer with two taggers that both give a tag. *)
Definition muxOk : tag.TaggerMux :=
  {| tag.taggers := []; tag.byImageName := {[ "app" := tag.ChecksumTagger ]};
     tag.allTaggers := [];
     tag.allTaggersByImageName :=
       {[ "app" := [tag.ChecksumTagger; tag.CustomTagTagger "v9"] ]} |}.

End TagScenario.

(** * Manifest lists

    A shallow embedding of [CreateManifestList] of package [docker]. The
    parsing of references, the assembly of the index and its digest are
    functions of other packages and are pure; fetching an image, writing
    the index and the log line are recorded in a trace. *)

(** Opaque handles: [name.Reference], [v1.Image], [*v1.Platform],
    [v1.ImageIndex] and [v1.Hash], with the zero values of an image and
    of a platform pointer. *)
Class DockerHandles : Type :=
  { Reference : Type;
    RemoteImage : Type;
    PlatformPtr : Type;
    ImageIndex : Type;
    Hash : Type;
    nilImage : RemoteImage;
    nilPlatform : PlatformPtr }.

Module docker.
Section Model.
Context {handles : DockerHandles}.

Record SinglePlatformImage : Type :=
  { Platform : PlatformPtr; Image : string }.

(** [v1.Descriptor], of which the file sets one field, and
    [mutate.IndexAddendum]. *)
Record Descriptor : Type := { DescriptorPlatform : PlatformPtr }.
Record IndexAddendum : Type := { Add : RemoteImage; AddDescriptor : Descriptor }.

Definition zeroAddendum : IndexAddendum :=
  {| Add := nilImage; AddDescriptor := {| DescriptorPlatform := nilPlatform |} |}.

(** Modelled from the spec: [ParseReference] of package [docker] is
    declared in another file; the file reads the fields [BaseName] and
    [Tag] of the reference it returns. *)
Record ImageReference : Type := { BaseName : string; Tag : string }.

(** Functions of other files and packages that the file calls. *)
Record Collaborators : Type :=
  { name_ParseReference : string → result Reference;   (* with WeakValidation *)
    remote_Image : Reference → result RemoteImage;
    (* AppendManifests on the empty index of media type DockerManifestList *)
    mutate_AppendManifests : list IndexAddendum → ImageIndex;
    (* with the authentication of the primary keychain *)
    remote_WriteIndex : Reference → ImageIndex → option error;
    Digest : ImageIndex → result Hash;
    HashString : Hash → string;           (* the verb %s of a hash *)
    ReferenceString : Reference → string; (* the verb %s of a reference *)
    ParseReference : string → result ImageReference }.

Inductive call : Type :=
| CallRemoteImage (ref : Reference)
| CallWriteIndex (ref : Reference) (idx : ImageIndex)
| CallLogPrintf (line : string).

Definition isFetch (c : call) : bool :=
  match c with CallRemoteImage _ => true | _ => false end.

Variable K : Collaborators.

Definition ofResult {A} (r : result A) : outcome A :=
  match r with inl a => Return a | inr err => Fail err end.

Definition newline : string := String "010"%char EmptyString.

(** The loop over [images], at index [i], on the slice [adds]. *)
Fixpoint CreateManifestList_loop (i : nat) (images : list SinglePlatformImage)
    (adds : list IndexAddendum) : traced call (list IndexAddendum) :=
  match images with
  | [] => tret adds
  | image :: rest =>
      do! ref := (ofResult (name_ParseReference K (Image image)), []) in
      do! img := tcall (CallRemoteImage ref) (ofResult (remote_Image K ref)) in
      CreateManifestList_loop (S i) rest
        (<[i := {| Add := img;
                   AddDescriptor := {| DescriptorPlatform := Platform image |} |}]>
           adds)
  end.

Definition CreateManifestList (images : list SinglePlatformImage)
    (targetTag : string) : traced call string :=
  let adds := replicate (length images) zeroAddendum in
  do! adds := CreateManifestList_loop 0 images adds in
  let idx := mutate_AppendManifests K adds in
  do! targetRef := (ofResult (name_ParseReference K targetTag), []) in
  do! _ := tcall (CallWriteIndex targetRef idx)
             (match remote_WriteIndex K targetRef idx with
              | Some err => Fail err
              | None => Return tt
              end) in
  do! h := (ofResult (Digest K idx), []) in
  let dig := HashString K h in
  do! _ := tcall (CallLogPrintf
                    ("Created ManifestList for image "
                     +:+ ReferenceString K targetRef +:+ ". Digest: " +:+ dig
                     +:+ newline))
             (Return tt) in
  do! parsed := (ofResult (ParseReference K targetTag), []) in
  tret (BaseName parsed +:+ ":" +:+ Tag parsed +:+ "@" +:+ dig).
End Model.
End docker.

(** ** Vocabulary for manifest lists *)

Section DockerVocabulary.
Context {handles : DockerHandles}.
Variable K : docker.Collaborators.

(** The addendum of [image], fetched as [img]. *)
Definition addendum (image : docker.SinglePlatformImage) (img : RemoteImage)
  : docker.IndexAddendum :=
  {| docker.Add := img;
     docker.AddDescriptor :=
       {| docker.DescriptorPlatform := docker.Platform image |} |}.

(** The images [images] are all fetched: their references [refs] parse
    and the images [imgs] are got from them. *)
Definition allFetched (images : list docker.SinglePlatformImage)
    (refs : list Reference) (imgs : list RemoteImage) : Prop :=
  Forall2 (λ image ref, docker.name_ParseReference K (docker.Image image) = inl ref)
    images refs ∧
  Forall2 (λ ref img, docker.remote_Image K ref = inl img) refs imgs.

(** The image [image] cannot be fetched, with the error [err]: its
    reference does not parse, and no call is made for it, or the image
    cannot be got from its reference [ref], by a call on [ref]. *)
Definition fetchFails (image : docker.SinglePlatformImage) (err : error)
    (tried : list Reference) : Prop :=
  (docker.name_ParseReference K (docker.Image image) = inr err ∧ tried = []) ∨
  (∃ ref, docker.name_ParseReference K (docker.Image image) = inl ref ∧
          docker.remote_Image K ref = inr err ∧ tried = [ref]).

(** The line logged for the index written at [targetRef], of digest [h]. *)
Definition createdLine (targetRef : Reference) (h : Hash) : string :=
  "Created ManifestList for image " +:+ docker.ReferenceString K targetRef
  +:+ ". Digest: " +:+ docker.HashString K h +:+ docker.newline.

(** The calls that fetch through [refs], in order. *)
Definition fetches (refs : list Reference) : list docker.call :=
  docker.CallRemoteImage <$> refs.

(** The index made of [images], fetched as [imgs]. *)
Definition indexOf (images : list docker.SinglePlatformImage)
    (imgs : list RemoteImage) : ImageIndex :=
  docker.mutate_AppendManifests K (zip_with addendum images imgs).
End DockerVocabulary.

Module DockerScenario.
Definition handles : DockerHandles :=
  {| Reference := string; RemoteImage := string; PlatformPtr := string;
     ImageIndex := list (string * string); Hash := string;
     nilImage := EmptyString; nilPlatform := EmptyString |}.
#[local] Existing Instance handles.

(** References are the strings themselves, the empty one is refused; the
    image "gone" cannot be fetched; the digest of an index without
    manifests cannot be taken. *)
Definition K0 : docker.Collaborators :=
  {| docker.name_ParseReference :=
       λ s, if decide (s = EmptyString) then inr (Error "empty reference")
            else inl s;
     docker.remote_Image :=
       λ r, if decide (r = "gone") then inr (Error "manifest unknown")
            else inl ("image of " +:+ r);
     docker.mutate_AppendManifests :=
       List.map (λ a, (docker.Add a,
                       docker.DescriptorPlatform (docker.AddDescriptor a)));
     docker.remote_WriteIndex := λ _ _, None;
     docker.Digest :=
       λ idx, match idx with
              | [] => inr (Error "no manifests")
              | (img, _) :: _ => inl img
              end;
     docker.HashString := λ h, "sha256:" +:+ h;
     docker.ReferenceString := λ r, r;
     docker.ParseReference :=
       λ s, if decide (s = "registry/app:") then inr (Error "invalid tag")
            else inl {| docker.BaseName := s; docker.Tag := "latest" |} |}.

Definition amd64 : docker.SinglePlatformImage :=
  {| docker.Platform := "linux/amd64"; docker.Image := "app-amd64" |}.
Definition arm64 : docker.SinglePlatformImage :=
  {| docker.Platform := "linux/arm64"; docker.Image := "app-arm64" |}.
Definition gone : docker.SinglePlatformImage :=
  {| docker.Platform := "linux/s390x"; docker.Image := "gone" |}.
End DockerScenario.
(** ** Properties *)

Section MonadFacts.
Context {handles : Handles}.

Lemma bind_Return_inv {A B} (m : M A) (k : A → M B) b t :
  bind m k = (Return b, t) →
  ∃ a t1 t2, m = (Return a, t1) ∧ k a = (Return b, t2) ∧ t = t1 ++ t2.
Proof.
  unfold bind. destruct m as [[a|err|why] t1]; try discriminate.
  destruct (k a) as [r t2] eqn:Hk. intros [= -> <-]. eauto 6.
Qed.

Lemma bind_trace_Forall {A B} (P : event → Prop)
    (m : M A) (k : A → M B) :
  Forall P m.2 → (∀ a, Forall P (k a).2) → Forall P (bind m k).2.
Proof.
  intros Hm Hk. unfold bind. destruct m as [[a|err|why] t1]; simpl in *; auto.
  specialize (Hk a). destruct (k a) as [r t2]. simpl in *.
  apply Forall_app; auto.
Qed.

Lemma bind_Return_l {A B} (a : A) t (k : A → M B) :
  bind (Return a, t) k = ((k a).1, t ++ (k a).2).
Proof. simpl. by destruct (k a). Qed.

Lemma bind_assoc {A B C} (m : M A) (k : A → M B) (h : B → M C) :
  bind (bind m k) h = bind m (λ a, bind (k a) h).
Proof.
  destruct m as [[a|err|why] t]; simpl; try done.
  destruct (k a) as [[b|err|why] t']; simpl; try done.
  destruct (h b) as [r t'']. by rewrite app_assoc.
Qed.

Lemma bind_ext {A B} (m : M A) (k h : A → M B) :
  (∀ a, k a = h a) → bind m k = bind m h.
Proof. intros E. destruct m as [[a|err|why] t]; simpl; by rewrite ?E. Qed.

Lemma bind_ret_l {A B} (a : A) (k : A → M B) : bind (ret a) k = k a.
Proof. unfold ret. simpl. by destruct (k a). Qed.

Lemma deref_trace {A} (p : option A) : (deref p : M A).2 = [].
Proof. by destruct p. Qed.

Lemma deref_Return_inv {A} (p : option A) a t :
  (deref p : M A) = (Return a, t) → p = Some a ∧ t = [].
Proof. destruct p; simpl; unfold ret, panic; intros [= ]; subst; auto. Qed.
End MonadFacts.

Section ComposerFacts.
Context {handles : Handles}.
Variable K : Collaborators.

Lemma assignLabel_lookup k v ls :
  ∃ m, assignLabel k v ls = Some m ∧ m !! k = Some v.
Proof. eexists; split; [reflexivity|]. apply lookup_insert_eq. Qed.

Lemma setDefaultValues_Return (e : ExecEnv) job j' t :
  (setDefaultValues K e job : M _) = (Return j', t) →
  t = [] ∧
  defaulted (GetRunID K (labeller e)) j' ∧
  (namespace e ≠ EmptyString → jobNamespace j' ≠ EmptyString).
Proof.
  destruct job as [j|]; [|discriminate].
  unfold setDefaultValues; simpl. intros [= <- <-].
  split; [done|]. split.
  - repeat split; try apply assignLabel_lookup; reflexivity.
  - intros Hns. unfold jobNamespace at 1; simpl.
    case_decide as Hj; simpl; [done|].
    revert Hj. by destruct (jobLabels j), (templateLabels j).
Qed.

Lemma getBaseJobManifest_trace (e : ExecEnv) path :
  Forall (λ ev, isComposition ev = true)
    (getBaseJobManifest K e path : M _).2.
Proof.
  unfold getBaseJobManifest. case_decide; simpl.
  - by repeat constructor.
  - destruct (LoadFromPath K path); simpl; by repeat constructor.
Qed.

Lemma applyOverrides_trace (e : ExecEnv) job o :
  Forall (λ ev, isComposition ev = true)
    (applyOverrides K e job o : M _).2.
Proof.
  unfold applyOverrides. case_decide; simpl; [constructor|].
  destruct (ApplyOverrides K job o) as [[|p|kind]|err]; simpl;
    by repeat constructor.
Qed.

Lemma setDefaultValues_trace (e : ExecEnv) job :
  (setDefaultValues K e job : M _).2 = [].
Proof. by destruct job. Qed.

Lemma getJobManifest_trace (e : ExecEnv) path o :
  Forall (λ ev, isComposition ev = true) (getJobManifest K e path o : M _).2.
Proof.
  unfold getJobManifest.
  apply bind_trace_Forall; [apply getBaseJobManifest_trace|]. intros job.
  apply bind_trace_Forall; [apply applyOverrides_trace|]. intros job'.
  rewrite setDefaultValues_trace. constructor.
Qed.

Lemma getJobManifest_Return (e : ExecEnv) path o j t :
  (getJobManifest K e path o : M _) = (Return j, t) →
  defaulted (GetRunID K (labeller e)) j ∧
  (namespace e ≠ EmptyString → jobNamespace j ≠ EmptyString).
Proof.
  unfold getJobManifest. intros H.
  apply bind_Return_inv in H as (job & t1 & t2 & _ & H & _).
  apply bind_Return_inv in H as (job' & t3 & t4 & _ & H & _).
  apply setDefaultValues_Return in H as (_ & ? & ?). auto.
Qed.

Lemma newExecEnv_namespace ctx cfg l ns envMap acs :
  namespace (newExecEnv K ctx cfg l ns envMap acs) ≠ EmptyString.
Proof. simpl. by case_decide. Qed.

(** The type assertion of [applyOverrides] panics on every non-Job the
    applier returns. *)
Lemma applyOverrides_not_a_Job (e : ExecEnv) job o obj :
  o ≠ EmptyString →
  ApplyOverrides K job o = inl obj →
  (∀ p, obj ≠ ObjJob p) →
  ∃ why, applyOverrides K e job o = (Panic why, [CallApplyOverrides job o]).
Proof.
  intros Ho Hobj Hkind. unfold applyOverrides.
  rewrite decide_False by done. rewrite Hobj. simpl.
  destruct obj as [|p|kind]; [by eexists| |by eexists]. by destruct (Hkind p).
Qed.
End ComposerFacts.

Section OrchestratorFacts.
Context {handles : Handles}.
Variable K : Collaborators.

Implicit Types (e : ExecEnv) (ctx : Ctx) (out : Writer).
Implicit Types (built : gmap string graph.Artifact) (names : list string).



Lemma lastBuilt_app_cons name bs1 b bs2 :
  graph.ImageName b = name →
  Forall (λ b', graph.ImageName b' ≠ name) bs2 →
  lastBuilt name (bs1 ++ b :: bs2) = Some b.
Proof.
  intros Hb Hlater. unfold lastBuilt.
  rewrite filter_app, filter_cons_True by done.
  replace (filter _ bs2) with (@nil graph.Artifact); [apply last_snoc|].
  symmetry. induction Hlater as [|b' bs2 Hb' _ IH]; [done|].
  by rewrite filter_cons_False.
Qed.

Lemma createTasks_eq e ctx out aCfg jm built :
  createTasks e ctx out aCfg jm built =
    ((λ c, NewTask c (kubectl e) (namespace e)
             (getArtifactToDeploy e built c) jm e) <$> latest.Containers aCfg,
     trackedArtifact <$> latest.Containers aCfg).
Proof.
  unfold createTasks.
  set (g := λ c, NewTask c (kubectl e) (namespace e)
                   (getArtifactToDeploy e built c) jm e).
  enough (∀ cs (ts : list Task) tt,
    foldl (λ '(ts, toTrack) cCfg,
             (ts ++ [g cCfg], toTrack ++ [trackedArtifact cCfg])) (ts, tt) cs
    = (ts ++ (g <$> cs), tt ++ (trackedArtifact <$> cs))) as H by apply H.
  induction cs as [|c cs IH]; intros ts tt; simpl.
  - by rewrite !app_nil_r.
  - rewrite IH, <- !app_assoc. done.
Qed.

Lemma createActions_loop_cons e ctx out built n names acs tt :
  createActions_loop K e ctx out built (n :: names) acs tt =
    bind (assembleOne K e ctx out built n)
         (λ r, createActions_loop K e ctx out built names
                 (acs ++ [r.1]) (tt ++ r.2)).
Proof.
  simpl. unfold assembleOne.
  destruct (acsCfgByName e !! n) as [aCfg|]; [|done].
  rewrite !bind_assoc. apply bind_ext; intros mode.
  rewrite !bind_assoc. apply bind_ext; intros jm.
  destruct (createTasks e ctx out aCfg jm built) as [ts arts]; simpl.
  rewrite !bind_assoc. apply bind_ext; intros timeout.
  rewrite !bind_assoc. apply bind_ext; intros isFailFast.
  by rewrite bind_ret_l.
Qed.

Lemma createActions_loop_app e ctx out built names1 names2 :
  ∀ acs tt,
    createActions_loop K e ctx out built (names1 ++ names2) acs tt =
      bind (createActions_loop K e ctx out built names1 acs tt)
           (λ r, createActions_loop K e ctx out built names2 r.1 r.2).
Proof.
  induction names1 as [|n names1 IH]; intros acs tt.
  - simpl app. simpl (createActions_loop _ _ _ _ _ [] _ _).
    by rewrite bind_ret_l.
  - rewrite <- app_comm_cons, !createActions_loop_cons, bind_assoc.
    apply bind_ext; intros r. apply IH.
Qed.

(** *** One name *)

Lemma assembleOne_trace e ctx out built n :
  Forall (λ ev, isComposition ev = true) (assembleOne K e ctx out built n).2.
Proof.
  unfold assembleOne. destruct (acsCfgByName e !! n) as [aCfg|]; [|constructor].
  apply bind_trace_Forall; [rewrite deref_trace; constructor|]; intros mode.
  apply bind_trace_Forall; [apply getJobManifest_trace|]; intros jm.
  apply bind_trace_Forall; [rewrite deref_trace; constructor|]; intros timeout.
  apply bind_trace_Forall; [rewrite deref_trace; constructor|]; intros ff.
  constructor.
Qed.

Lemma assembleOne_Return e ctx out built n act arts t :
  assembleOne K e ctx out built n = (Return (act, arts), t) →
  assembled K e built n act ∧
  arts = accumulated (acsCfgByName e) [n].
Proof.
  unfold assembleOne, assembled, accumulated, composition. simpl.
  destruct (acsCfgByName e !! n) as [aCfg|]; [|discriminate]. intros H.
  apply bind_Return_inv in H as (mode & ? & ? & [Hm _]%deref_Return_inv & H & _).
  apply bind_Return_inv in H as (jm & t1 & ? & Hjm & H & _).
  apply bind_Return_inv in H as (timeout & ? & ? & [Ht _]%deref_Return_inv & H & _).
  apply bind_Return_inv in H as (ff & ? & ? & [Hf _]%deref_Return_inv & H & _).
  rewrite createTasks_eq in H. injection H as <- <- _.
  split; [|by rewrite app_nil_r].
  exists aCfg, jm, timeout, ff. rewrite Hm. simpl. rewrite Hjm. done.
Qed.

Lemma assembleOne_returned e ctx out built n :
  returned (assembleOne K e ctx out built n).1 = assemblable K e n.
Proof.
  unfold assembleOne, assemblable, composition.
  destruct (acsCfgByName e !! n) as [aCfg|]; [|done].
  destruct (latest.KubernetesClusterExecutionMode _) as [mode|]; [|done].
  simpl.
  destruct (getJobManifest K e _ _) as [[jm|err|why] t]; simpl; try done.
  by destruct (latest.Timeout _) as [timeout|],
    (latest.IsFailFast _) as [ff|].
Qed.

(** The artifacts built in this run change neither whether a name is
    assembled, nor how it fails, nor the calls made for it. *)
Lemma assembleOne_built_irrelevant e ctx out built built' n :
  failure (assembleOne K e ctx out built n).1 =
    failure (assembleOne K e ctx out built' n).1 ∧
  (assembleOne K e ctx out built n).2 = (assembleOne K e ctx out built' n).2.
Proof.
  unfold assembleOne.
  destruct (acsCfgByName e !! n) as [aCfg|]; [|done].
  destruct (latest.KubernetesClusterExecutionMode _) as [mode|]; [|done].
  simpl.
  destruct (getJobManifest K e _ _) as [[jm|err|why] t]; simpl; try done.
  destruct (latest.Timeout _) as [timeout|]; simpl; [|done].
  destruct (latest.IsFailFast _) as [ff|]; simpl; done.
Qed.
End OrchestratorFacts.

Section BatchFacts.
Context {handles : Handles}.
Variable K : Collaborators.

Implicit Types (e : ExecEnv) (ctx : Ctx) (out : Writer).
Implicit Types (built : gmap string graph.Artifact) (names : list string).

Lemma composition_is_not_registration (tr : list event) :
  Forall (λ ev, isComposition ev = true) tr → neverRegisters tr.
Proof. intros Htr. eapply Forall_impl; [exact Htr|]. by intros []. Qed.

Lemma createActions_loop_trace e ctx out built names :
  ∀ acs tt,
    Forall (λ ev, isComposition ev = true)
      (createActions_loop K e ctx out built names acs tt).2.
Proof.
  induction names as [|n names IH]; intros acs tt; [constructor|].
  rewrite createActions_loop_cons.
  apply bind_trace_Forall; [apply assembleOne_trace|]. intros r. apply IH.
Qed.

Lemma createActions_loop_Return e ctx out built names :
  ∀ acs0 tt0 acs tt tr,
    createActions_loop K e ctx out built names acs0 tt0 = (Return (acs, tt), tr) →
    ∃ news, acs = acs0 ++ news ∧
            Forall2 (assembled K e built) names news ∧
            tt = tt0 ++ accumulated (acsCfgByName e) names.
Proof.
  induction names as [|n names IH]; intros acs0 tt0 acs tt tr Hrun.
  - injection Hrun as <- <- _. exists []. by rewrite !app_nil_r.
  - rewrite createActions_loop_cons in Hrun.
    apply bind_Return_inv in Hrun as ([act arts] & t1 & t2 & Hone & Hrest & _).
    apply assembleOne_Return in Hone as [Hact ->].
    apply IH in Hrest as (news & -> & Hnews & ->). simpl.
    exists (act :: news). rewrite <- !app_assoc.
    split; [done|]. split; [by constructor|]. done.
Qed.

Lemma createActions_loop_returned e ctx out built names :
  ∀ acs tt,
    returned (createActions_loop K e ctx out built names acs tt).1 =
      forallb (assemblable K e) names.
Proof.
  induction names as [|n names IH]; intros acs tt; [done|].
  rewrite createActions_loop_cons. simpl forallb.
  rewrite <- (assembleOne_returned K e ctx out built n).
  destruct (assembleOne K e ctx out built n) as [[r|err|why] t]; try done.
  rewrite bind_Return_l. apply IH.
Qed.

Lemma createActions_loop_built_irrelevant e ctx out built built' names :
  ∀ acs tt acs' tt',
    failure (createActions_loop K e ctx out built names acs tt).1 =
      failure (createActions_loop K e ctx out built' names acs' tt').1 ∧
    (createActions_loop K e ctx out built names acs tt).2 =
      (createActions_loop K e ctx out built' names acs' tt').2.
Proof.
  induction names as [|n names IH]; intros acs tt acs' tt'; [done|].
  rewrite !createActions_loop_cons.
  destruct (assembleOne_built_irrelevant K e ctx out built built' n) as [Hf Ht].
  destruct (assembleOne K e ctx out built n) as [[r|err|why] t],
           (assembleOne K e ctx out built' n) as [[r'|err'|why'] t'];
    simpl in Hf, Ht; try discriminate; subst t'.
  - rewrite !bind_Return_l. simpl.
    destruct (IH (acs ++ [r.1]) (tt ++ r.2) (acs' ++ [r'.1]) (tt' ++ r'.2))
      as [-> ->]. done.
  - injection Hf as <-. done.
  - injection Hf as <-. done.
Qed.

(** *** The batch build *)

Lemma createActions_batchAtomic e ctx out bs names :
  batchAtomic K e bs names (createActions K e ctx out bs names).
Proof.
  unfold batchAtomic, createActions.
  pose proof (createActions_loop_trace e ctx out (indexByImageName bs) names [] [])
    as Htr%composition_is_not_registration.
  destruct (createActions_loop _ _ _ _ _ _ _ _) as [[[acs tt]|err|why] tr] eqn:Hrun;
    simpl in *; try done.
  apply createActions_loop_Return in Hrun as (news & -> & Hnews & ->).
  split; [done|]. by exists tr.
Qed.

Lemma createActions_returned e ctx out bs names :
  returned (createActions K e ctx out bs names).1 =
    forallb (assemblable K e) names.
Proof.
  rewrite <- (createActions_loop_returned e ctx out (indexByImageName bs) names [] []).
  unfold createActions.
  by destruct (createActions_loop _ _ _ _ _ _ _ _) as [[[acs tt]|err|why] tr].
Qed.

Lemma PrepareActions_cases e ctx out bs names :
  PrepareActions K e ctx out bs names =
    match FailIfClusterIsNotReachable K (kubectl.KubeContext (kubectl e)) with
    | Some err =>
        (Fail (Errorf_w "unable to connect to Kubernetes: " err),
         [CallFailIfClusterIsNotReachable (kubectl.KubeContext (kubectl e))])
    | None =>
        ((createActions K e ctx out bs names).1,
         CallFailIfClusterIsNotReachable (kubectl.KubeContext (kubectl e))
           :: CallLoggerStart (logger e) ctx out
           :: (createActions K e ctx out bs names).2)
    end.
Proof.
  unfold PrepareActions.
  destruct (FailIfClusterIsNotReachable K _) as [err|]; [done|].
  simpl. by destruct (createActions K e ctx out bs names) as [[acs|err|why] tr].
Qed.

Lemma createActions_trace e ctx out bs names :
  Forall (λ ev, isComposition ev || isRegisterArtifacts ev = true)
    (createActions K e ctx out bs names).2.
Proof.
  unfold createActions.
  pose proof (createActions_loop_trace e ctx out (indexByImageName bs) names [] [])
    as Htr.
  destruct (createActions_loop _ _ _ _ _ _ _ _) as [[[acs tt]|err|why] tr];
    simpl in *.
  - apply Forall_app. split; [|by repeat constructor].
    eapply Forall_impl; [exact Htr|]. by intros ? ->.
  - eapply Forall_impl; [exact Htr|]. by intros ? ->.
  - eapply Forall_impl; [exact Htr|]. by intros ? ->.
Qed.
End BatchFacts.

(** ** The claims *)

Section Claims.
Context {handles : Handles}.
Variable K : Collaborators.

Implicit Types (e : ExecEnv) (ctx : Ctx) (out : Writer).
Implicit Types (built : gmap string graph.Artifact) (names : list string).

(** C1. [RegisterArtifacts] is called only after every requested action
    has been assembled, once, with the tracked artifacts accumulated over
    all the actions; a build that does not return its list of actions
    never calls it; and the build returns exactly when every requested
    name can be assembled. This holds of [createActions] and of
    [PrepareActions], which reaches it. *)
Theorem registration_is_all_or_nothing e ctx out bs names :
  batchAtomic K e bs names (createActions K e ctx out bs names) ∧
  batchAtomic K e bs names (PrepareActions K e ctx out bs names) ∧
  returned (createActions K e ctx out bs names).1 =
    forallb (assemblable K e) names ∧
  returned (PrepareActions K e ctx out bs names).1 =
    match FailIfClusterIsNotReachable K (kubectl.KubeContext (kubectl e)) with
    | None => forallb (assemblable K e) names
    | Some _ => false
    end.
Proof.
  pose proof (createActions_batchAtomic K e ctx out bs names) as Hbatch.
  split; [exact Hbatch|]. rewrite PrepareActions_cases.
  destruct (FailIfClusterIsNotReachable K _) as [err|].
  - repeat split; [|apply createActions_returned].
    unfold batchAtomic. simpl. by repeat constructor.
  - repeat split; try apply createActions_returned.
    unfold batchAtomic in *. simpl.
    destruct (createActions K e ctx out bs names).1 as [acs|err|why].
    + destruct Hbatch as [Hacs (before & -> & Hbefore)]. split; [done|].
      eexists (_ :: _ :: before). split; [reflexivity|].
      by repeat constructor.
    + by repeat constructor.
    + by repeat constructor.
Qed.

(** C4. The resolved artifact has the image name the container declares;
    its tag is the tag of the built artifact when the map holds the
    declared image name, and the declared image name otherwise. *)
Theorem getArtifactToDeploy_resolves e built (cfg : latest.VerifyContainer) :
  graph.ImageName (getArtifactToDeploy e built cfg) = latest.Image cfg ∧
  graph.Tag (getArtifactToDeploy e built cfg) =
    match built !! latest.Image cfg with
    | Some ba => graph.Tag ba
    | None => latest.Image cfg
    end.
Proof.
  unfold getArtifactToDeploy. by destruct (built !! latest.Image cfg).
Qed.

(** C8. [createTasks] emits one tracked artifact per container, in the
    order of the declarations: its image name is the image the container
    declares and its tag field is the logical name of the container,
    whatever the built artifacts are. *)
Theorem createTasks_tracks_each_container e ctx out aCfg jm built :
  (createTasks e ctx out aCfg jm built).2 =
    (λ c, {| graph.ImageName := latest.Image c;
             graph.Tag := latest.ContainerName c |}) <$> latest.Containers aCfg ∧
  length (createTasks e ctx out aCfg jm built).1 =
    length (latest.Containers aCfg).
Proof.
  rewrite createTasks_eq. simpl. split; [done|]. apply length_fmap.
Qed.

(** C3. A manifest composed in an environment made by [newExecEnv] has a
    namespace that is not empty, label maps that are not nil on the Job
    and on its Pod template, both holding the run identifier of the
    labeller under "skaffold.dev/run-id" whatever the base template or
    the overrides put there, the restart policy "Never" and the backoff
    limit zero. *)
Theorem composed_manifest_invariants ctx cfg l ns envMap acs path o job tr :
  getJobManifest K (newExecEnv K ctx cfg l ns envMap acs) path o
    = (Return job, tr) →
  jobNamespace job ≠ EmptyString ∧
  (∃ ls, jobLabels job = Some ls ∧
         ls !! "skaffold.dev/run-id" = Some (GetRunID K l)) ∧
  (∃ ls, templateLabels job = Some ls ∧
         ls !! "skaffold.dev/run-id" = Some (GetRunID K l)) ∧
  restartPolicy job = "Never" ∧
  backoffLimit job = Some 0%Z.
Proof.
  intros [Hd Hns]%getJobManifest_Return. split; [|exact Hd].
  apply Hns, newExecEnv_namespace.
Qed.

(** C5, as amended. When a requested name is absent from the registry,
    the build returns no actions, registers nothing and does nothing for
    the names after it; and when every name before it can be assembled,
    the build fails with the error that names it. *)
Theorem absent_name_aborts_batch e ctx out bs before missing after :
  acsCfgByName e !! missing = None →
  returned (createActions K e ctx out bs (before ++ missing :: after)).1 = false ∧
  neverRegisters (createActions K e ctx out bs (before ++ missing :: after)).2 ∧
  createActions K e ctx out bs (before ++ missing :: after) =
    createActions K e ctx out bs (before ++ [missing]) ∧
  (forallb (assemblable K e) before = true →
   (createActions K e ctx out bs (before ++ missing :: after)).1 =
     Fail (Error ("action " +:+ missing +:+ " not found for k8s execution mode"))).
Proof.
  intros Habsent.
  assert (∀ rest acs tt,
    createActions_loop K e ctx out (indexByImageName bs) (missing :: rest) acs tt
    = throw (notFound missing)) as Hstop.
  { intros. simpl. by rewrite Habsent. }
  assert (returned (createActions K e ctx out bs (before ++ missing :: after)).1
          = false) as Hret.
  { rewrite createActions_returned, forallb_app. simpl.
    unfold assemblable at 2. rewrite Habsent. apply andb_false_r. }
  split; [exact Hret|]. split; [|split].
  - pose proof (createActions_batchAtomic K e ctx out bs
                  (before ++ missing :: after)) as Hbatch.
    unfold batchAtomic in Hbatch.
    by destruct (createActions _ _ _ _ _ _).1.
  - unfold createActions. rewrite !createActions_loop_app.
    f_equal. apply bind_ext. intros r. by rewrite !Hstop.
  - intros Hbefore. unfold createActions. rewrite createActions_loop_app.
    rewrite <- (createActions_loop_returned K e ctx out (indexByImageName bs)
                  before [] []) in Hbefore.
    destruct (createActions_loop K e ctx out _ before [] [])
      as [[r|err|why] t]; try discriminate.
    rewrite bind_Return_l, Hstop. done.
Qed.

(** C6. [PrepareActions] probes the cluster before anything else. When
    the probe fails, the call returns an error that wraps the error of
    the probe and the probe is the only call made. When it succeeds, the
    log streamer is started next, on the output sink, and every call
    that composes a manifest or registers artifacts comes after it. *)
Theorem PrepareActions_probes_first e ctx out bs names :
  let probe :=
    CallFailIfClusterIsNotReachable (kubectl.KubeContext (kubectl e)) in
  match FailIfClusterIsNotReachable K (kubectl.KubeContext (kubectl e)) with
  | Some err =>
      ∃ failure,
        PrepareActions K e ctx out bs names = (Fail failure, [probe]) ∧
        Unwrap failure = Some err ∧
        errorString failure = "unable to connect to Kubernetes: " +:+ errorString err
  | None =>
      ∃ building,
        (PrepareActions K e ctx out bs names).2 =
          probe :: CallLoggerStart (logger e) ctx out :: building ∧
        building = (createActions K e ctx out bs names).2 ∧
        Forall (λ ev, isComposition ev || isRegisterArtifacts ev = true) building ∧
        (PrepareActions K e ctx out bs names).1 =
          (createActions K e ctx out bs names).1
  end.
Proof.
  intros probe. rewrite PrepareActions_cases.
  destruct (FailIfClusterIsNotReachable K _) as [err|].
  - by eexists.
  - eexists. split; [reflexivity|]. split; [reflexivity|].
    split; [apply createActions_trace|done].
Qed.

(** C7. The actions a build returns follow the requested names, in their
    order; each carries the name, the timeout and the fail-fast flag of
    its configuration, and its tasks follow the containers the
    configuration declares, in their order. *)
Theorem actions_follow_names e ctx out bs names acs tr :
  createActions K e ctx out bs names = (Return acs, tr) →
  Forall2 (carries e) names acs.
Proof.
  intros Hrun.
  pose proof (createActions_batchAtomic K e ctx out bs names) as Hbatch.
  unfold batchAtomic in Hbatch. rewrite Hrun in Hbatch. simpl in Hbatch.
  destruct Hbatch as [Hacs _].
  eapply Forall2_impl; [exact Hacs|].
  intros n act (aCfg & jm & timeout & ff & Hn & _ & Ht & Hf & ->).
  exists aCfg. simpl. repeat split; try done.
  rewrite <- list_fmap_compose. apply list_fmap_id.
Qed.

End Claims.

Section Determinism.
Context {handles : Handles}.
Variables K1 K2 : Collaborators.

(** C9. Composition is deterministic: two calls of [getJobManifest] on
    the same path and overrides, in environments with the same namespace
    and the same run identifier, whose calls to the manifest loader and
    to the override applier give the same results, end the same way,
    with the same manifest and the same calls. *)
Theorem getJobManifest_deterministic (e1 e2 : ExecEnv) path o :
  namespace e1 = namespace e2 →
  GetRunID K1 (labeller e1) = GetRunID K2 (labeller e2) →
  GetGenericJob K1 = GetGenericJob K2 →
  LoadFromPath K1 path = LoadFromPath K2 path →
  (∀ job, ApplyOverrides K1 job o = ApplyOverrides K2 job o) →
  getJobManifest K1 e1 path o = getJobManifest K2 e2 path o.
Proof.
  intros Hns Hid Hgen Hload Hpatch.
  assert (∀ job, setDefaultValues K1 e1 job = setDefaultValues K2 e2 job) as Hdef.
  { intros [j|]; [|done]. unfold setDefaultValues. by rewrite Hns, Hid. }
  assert (∀ job, applyOverrides K1 e1 job o = applyOverrides K2 e2 job o) as Hover.
  { intros job. unfold applyOverrides. by rewrite Hpatch. }
  unfold getJobManifest, getBaseJobManifest. rewrite Hgen, Hload.
  apply bind_ext. intros job. rewrite Hover. apply bind_ext, Hdef.
Qed.
End Determinism.

(** ** The claims in the concrete environment *)

Section Concrete.
Import Scenario.
#[local] Existing Instance Scenario.handles.

(** C2 fails on the code. Overrides that turn the manifest into a Pod
    make the applier return a Pod without an error; composition then
    panics in the type assertion instead of returning an error, and so
    does the build of the action. *)
Theorem override_to_Pod_panics :
  ApplyOverrides K0 (Some genericJob) podPatch = inl (ObjOther "*v1.Pod") ∧
  getJobManifest K0 e0 EmptyString podPatch =
    (Panic "interface conversion: runtime.Object is *v1.Pod, not *v1.Job",
     [CallGetGenericJob; CallApplyOverrides (Some genericJob) podPatch]) ∧
  (PrepareActions K0 e0 tt "stdout" built ["patched"]).1 =
    Panic "interface conversion: runtime.Object is *v1.Pod, not *v1.Job".
Proof. repeat split; vm_compute; reflexivity. Qed.

Lemma composed_manifest_invariants_witness :
  ∃ job tr,
    getJobManifest K0 e0 "job.yaml" EmptyString = (Return job, tr) ∧
    jobNamespace job = "prod" ∧
    (jobNamespace job ≠ EmptyString ∧
     (∃ ls, jobLabels job = Some ls ∧
            ls !! "skaffold.dev/run-id" = Some "run-1") ∧
     (∃ ls, templateLabels job = Some ls ∧
            ls !! "skaffold.dev/run-id" = Some "run-1") ∧
     restartPolicy job = "Never" ∧
     backoffLimit job = Some 0%Z).
Proof.
  eexists _, _. split; [vm_compute; reflexivity|]. split; [reflexivity|].
  apply (composed_manifest_invariants K0 tt "minikube" "run-1" EmptyString ∅
           [verify; stored; broken; patched] "job.yaml" EmptyString _
           [CallLoadFromPath "job.yaml"]).
  vm_compute; reflexivity.
Defined.

(** C5 as the claim states it fails: an earlier name whose manifest
    cannot be loaded ends the build with the error of the loader, which
    does not name the absent action. *)
Lemma earlier_failure_hides_absent_name :
  (createActions K0 e0 tt "stdout" [] ["broken"; "missing"]).1 =
    Fail (Error "open /no/such/job.yaml: no such file or directory") ∧
  ¬ failsAtFirstAbsent e0 ["broken"; "missing"]
      (createActions K0 e0 tt "stdout" [] ["broken"; "missing"]).
Proof.
  split; [vm_compute; reflexivity|]. intros Hclaim.
  specialize (Hclaim ["broken"] "missing" [] eq_refl).
  assert ((createActions K0 e0 tt "stdout" [] ["broken"; "missing"]).1
          = Fail (notFound "missing")) as Hrun.
  { apply Hclaim; [|vm_compute; reflexivity].
    repeat constructor. vm_compute. eauto. }
  vm_compute in Hrun. discriminate Hrun.
Qed.

Lemma absent_name_aborts_batch_witness :
  acsCfgByName e0 !! "missing" = None ∧
  returned (createActions K0 e0 tt "stdout" built ["verify"; "missing"; "stored"]).1
    = false ∧
  neverRegisters
    (createActions K0 e0 tt "stdout" built ["verify"; "missing"; "stored"]).2 ∧
  createActions K0 e0 tt "stdout" built ["verify"; "missing"; "stored"] =
    createActions K0 e0 tt "stdout" built ["verify"; "missing"] ∧
  (forallb (assemblable K0 e0) ["verify"] = true →
   (createActions K0 e0 tt "stdout" built ["verify"; "missing"; "stored"]).1 =
     Fail (Error "action missing not found for k8s execution mode")).
Proof.
  split; [vm_compute; reflexivity|].
  apply (absent_name_aborts_batch K0 e0 tt "stdout" built
           ["verify"] "missing" ["stored"]).
  vm_compute; reflexivity.
Defined.

Lemma actions_follow_names_witness :
  ∃ acs tr,
    createActions K0 e0 tt "stdout" built ["stored"; "verify"] = (Return acs, tr) ∧
    Forall2 (carries e0) ["stored"; "verify"] acs.
Proof.
  eexists _, _. split; [vm_compute; reflexivity|].
  eapply (actions_follow_names K0 e0 tt "stdout" built ["stored"; "verify"]).
  vm_compute; reflexivity.
Defined.

Lemma getJobManifest_deterministic_witness :
  getJobManifest K0 e0 "job.yaml" "{}" =
    getJobManifest K0 down "job.yaml" "{}".
Proof.
  apply (getJobManifest_deterministic K0 K0 e0 down "job.yaml" "{}");
    reflexivity.
Defined.

(** Scenarios A to D of the specification. *)

Example scenario_A :
  ∃ (task : Task) (jm : batchv1.Job),
    PrepareActions K0 e0 tt "stdout"
      [ {| graph.ImageName := "app"; graph.Tag := "v1" |} ] ["verify"] =
      (Return [NewAction "verify" 10 true [task]],
       [CallFailIfClusterIsNotReachable "minikube"; CallLoggerStart tt tt "stdout";
        CallGetGenericJob;
        CallRegisterArtifacts tt
          [ {| graph.ImageName := "app"; graph.Tag := "t1" |} ]]) ∧
    task = NewTask t1 (kubectl e0) "default"
             {| graph.ImageName := "app"; graph.Tag := "v1" |} jm e0 ∧
    jobLabels jm = Some {[ "skaffold.dev/run-id" := "run-1" ]} ∧
    templateLabels jm = Some {[ "skaffold.dev/run-id" := "run-1" ]} ∧
    restartPolicy jm = "Never" ∧
    backoffLimit jm = Some 0%Z.
Proof. eexists _, _. repeat split; vm_compute; reflexivity. Qed.

Example scenario_B :
  getArtifactToDeploy e0 (indexByImageName []) t1 =
    {| graph.ImageName := "app"; graph.Tag := "app" |}.
Proof. vm_compute; reflexivity. Qed.

Example scenario_C :
  createActions K0 e0 tt "stdout" built ["missing"] =
    (Fail (Error "action missing not found for k8s execution mode"), []).
Proof. vm_compute; reflexivity. Qed.

Example scenario_D :
  createActions K0 e0 tt "stdout" built ["verify"; "broken"] =
    (Fail (Error "open /no/such/job.yaml: no such file or directory"),
     [CallGetGenericJob; CallLoadFromPath "/no/such/job.yaml"]).
Proof. vm_compute; reflexivity. Qed.

Example duplicate_builds :
  taskArtifact <$>
    (createTasks e0 tt "stdout" stored Scenario.storedJob
       (indexByImageName built)).1 =
    [ {| graph.ImageName := "app"; graph.Tag := "v1" |};
      {| graph.ImageName := "db"; graph.Tag := "db:7" |} ].
Proof. vm_compute; reflexivity. Qed.

Example unreachable_cluster :
  PrepareActions K0 down tt "stdout" built ["verify"] =
    (Fail (Wrapping "unable to connect to Kubernetes: connection refused"
             (Error "connection refused")),
     [CallFailIfClusterIsNotReachable "down"]).
Proof. vm_compute; reflexivity. Qed.
End Concrete.

(** ** Further properties of [exec_env.go] *)

#[local] Set Warnings "-clear-no-such-hyp".

Section RegistryFacts.
Context {handles : Handles}.
Variable K : Collaborators.

Lemma indexByName_snoc acs a :
  indexByName (acs ++ [a]) = <[latest.Name a := a]> (indexByName acs).
Proof. unfold indexByName. by rewrite foldl_app. Qed.

Lemma indexByName_lookup acs n :
  indexByName acs !! n = last (filter (λ a, latest.Name a = n) acs).
Proof.
  induction acs as [|a acs IH] using rev_ind; [done|].
  rewrite indexByName_snoc, filter_app, lookup_insert.
  case_decide as Hn.
  - rewrite filter_cons_True, filter_nil by done. by rewrite last_snoc.
  - rewrite filter_cons_False, filter_nil, app_nil_r by done. apply IH.
Qed.

Lemma last_filter_Some {A} (P : A → Prop) `{∀ x, Decision (P x)} (l : list A) x :
  last (filter P l) = Some x → P x ∧ x ∈ l.
Proof.
  intros Hlast. apply last_Some in Hlast as [l' Hl'].
  assert (x ∈ filter P l) as Hx by (rewrite Hl'; set_solver).
  by apply list_elem_of_filter in Hx.
Qed.

Lemma indexByName_Some acs n aCfg :
  indexByName acs !! n = Some aCfg → latest.Name aCfg = n ∧ aCfg ∈ acs.
Proof.
  rewrite indexByName_lookup. intros Hlast.
  by apply (last_filter_Some (λ a, latest.Name a = n)) in Hlast.
Qed.

(** X1. The registry of an environment made by [newExecEnv] maps a name to
    the last action of that name in the list given, and to nothing when
    the list has no action of that name; the configuration found under a
    name carries that name. *)
Theorem newExecEnv_registry ctx cfg l ns envMap acs n :
  acsCfgByName (newExecEnv K ctx cfg l ns envMap acs) !! n =
    last (filter (λ a, latest.Name a = n) acs) ∧
  match acsCfgByName (newExecEnv K ctx cfg l ns envMap acs) !! n with
  | Some aCfg => latest.Name aCfg = n ∧ aCfg ∈ acs
  | None => n ∉ latest.Name <$> acs
  end.
Proof.
  simpl. rewrite indexByName_lookup. split; [done|].
  destruct (last _) as [aCfg|] eqn:Hlast.
  - rewrite <- indexByName_lookup in Hlast. by apply indexByName_Some in Hlast.
  - apply last_None in Hlast. intros (a & Ha & Hin)%list_elem_of_fmap.
    assert (a ∈ filter (λ a, latest.Name a = n) acs) as Hf
      by by apply list_elem_of_filter.
    rewrite Hlast in Hf. by apply not_elem_of_nil in Hf.
Qed.

(** X2. In an environment made by [newExecEnv], the actions a build
    returns bear the requested names, in the order requested. *)
Theorem returned_actions_bear_requested_names
    ctx cfg l ns envMap acsCfg ctx' out bs names acs tr :
  createActions K (newExecEnv K ctx cfg l ns envMap acsCfg) ctx' out bs names
    = (Return acs, tr) →
  actionName <$> acs = names.
Proof.
  set (e := newExecEnv K ctx cfg l ns envMap acsCfg). intros Hrun.
  pose proof (createActions_batchAtomic K e ctx' out bs names) as Hbatch.
  unfold batchAtomic in Hbatch. rewrite Hrun in Hbatch. simpl fst in Hbatch.
  destruct Hbatch as [Hacs _]. clear Hrun.
  induction Hacs as [|n act names acs Hact _ IH]; [done|].
  rewrite fmap_cons. f_equal; [|exact IH].
  destruct Hact as (aCfg & jm & timeout & ff & Hn & _ & _ & _ & ->).
  simpl. by apply indexByName_Some in Hn as [-> _].
Qed.
End RegistryFacts.

Section DefaultingFacts.
Context {handles : Handles}.
Variable K : Collaborators.

Implicit Types (e : ExecEnv) (j : batchv1.Job).

(** X3. Defaulting is idempotent: defaulting again a manifest that
    [setDefaultValues] produced changes nothing. *)
Theorem setDefaultValues_idempotent e job j t :
  setDefaultValues K e job = (Return j, t) →
  setDefaultValues K e (Some j) = (Return j, []).
Proof.
  destruct job as [j0|]; [|discriminate].
  unfold setDefaultValues; simpl. intros [= <- <-].
  destruct j0 as [[name ns ls] [backoff [[tname tns tls] [policy cs]]]].
  unfold ret, jobLabels, templateLabels, jobNamespace, assignLabel; simpl.
  destruct ls as [ls|], tls as [tls|]; simpl;
    repeat (case_decide; simpl); subst; simpl;
    rewrite ?insert_insert_eq; try done; congruence.
Qed.

(** X4. Defaulting leaves everything else as it was: the names and the
    containers, the namespace of the Pod template, every label other than
    "skaffold.dev/run-id", and a namespace of the Job that is not empty;
    an empty one becomes the namespace of the environment. *)
Theorem setDefaultValues_preserves e j0 :
  ∃ j,
    setDefaultValues K e (Some j0) = (Return j, []) ∧
    metav1.Name (batchv1.ObjectMeta j) = metav1.Name (batchv1.ObjectMeta j0) ∧
    corev1.ObjectMeta (batchv1.Template (batchv1.Spec j)) =
      metav1.with_Labels (templateLabels j)
        (corev1.ObjectMeta (batchv1.Template (batchv1.Spec j0))) ∧
    corev1.PodContainers (corev1.Spec (batchv1.Template (batchv1.Spec j))) =
      corev1.PodContainers (corev1.Spec (batchv1.Template (batchv1.Spec j0))) ∧
    jobNamespace j =
      (if decide (jobNamespace j0 = EmptyString) then namespace e
       else jobNamespace j0) ∧
    (∀ k, k ≠ "skaffold.dev/run-id" →
          default ∅ (jobLabels j) !! k = default ∅ (jobLabels j0) !! k ∧
          default ∅ (templateLabels j) !! k = default ∅ (templateLabels j0) !! k).
Proof.
  eexists. split; [reflexivity|].
  destruct j0 as [[name ns ls] [backoff [[tname tns tls] [policy cs]]]].
  unfold jobLabels, templateLabels, jobNamespace, assignLabel; simpl.
  repeat split;
    destruct ls, tls; simpl; repeat (case_decide; simpl);
    rewrite ?lookup_insert_ne by done; try done; congruence.
Qed.

(** X5. Composition returns no error of its own: an error it returns is
    the error of the manifest loader, on a path that is not empty and
    with no call of the applier, or the error of the override applier, on
    overrides that are not empty. *)
Theorem getJobManifest_errors_are_collaborator_errors e path o err t :
  getJobManifest K e path o = (Fail err, t) →
  (path ≠ EmptyString ∧ LoadFromPath K path = inr err ∧
   t = [CallLoadFromPath path]) ∨
  (o ≠ EmptyString ∧
   ∃ base ev, getBaseJobManifest K e path = (Return base, [ev]) ∧
              ApplyOverrides K base o = inr err ∧
              t = [ev; CallApplyOverrides base o]).
Proof.
  unfold getJobManifest, getBaseJobManifest.
  case_decide as Hpath; simpl.
  - unfold applyOverrides. case_decide as Ho; simpl.
    + destruct (GetGenericJob K); discriminate.
    + destruct (ApplyOverrides K (GetGenericJob K) o) as [[|[j|]|kind]|err'] eqn:Hpatch;
        simpl; try discriminate.
      intros [= <- <-]. right. split; [done|]. eauto.
  - destruct (LoadFromPath K path) as [base|err'] eqn:Hload; simpl.
    + unfold applyOverrides. case_decide as Ho; simpl.
      * destruct base; discriminate.
      * destruct (ApplyOverrides K base o) as [[|[j|]|kind]|err''] eqn:Hpatch;
          simpl; try discriminate.
        intros [= <- <-]. right. split; [done|]. eauto.
    + intros [= <- <-]. by left.
Qed.

(** X6. The calls of a composition: one call for the base manifest (the
    generic Job for the empty path, the loader otherwise), then one call
    of the override applier when the base was obtained and the overrides
    are not empty, and no other call. Empty overrides never reach the
    applier and the empty path never reaches the loader. *)
Theorem getJobManifest_calls e path o :
  (getJobManifest K e path o).2 =
    (if decide (path = EmptyString) then CallGetGenericJob
     else CallLoadFromPath path)
    :: match (getBaseJobManifest K e path).1 with
       | Return base =>
           if decide (o = EmptyString) then [] else [CallApplyOverrides base o]
       | _ => []
       end.
Proof.
  unfold getJobManifest, getBaseJobManifest.
  case_decide as Hpath; simpl.
  - unfold applyOverrides. case_decide as Ho; simpl.
    + by destruct (GetGenericJob K).
    + by destruct (ApplyOverrides K (GetGenericJob K) o) as [[|[j|]|kind]|err'].
  - destruct (LoadFromPath K path) as [base|err']; simpl; [|done].
    unfold applyOverrides. case_decide as Ho; simpl.
    + by destruct base.
    + by destruct (ApplyOverrides K base o) as [[|[j|]|kind]|err''].
Qed.
End DefaultingFacts.

Section BatchMore.
Context {handles : Handles}.
Variable K : Collaborators.

Implicit Types (e : ExecEnv) (ctx : Ctx) (out : Writer).
Implicit Types (names : list string) (bs : list graph.Artifact).

(** The accumulators of the loop only grow: the loop started on
    [(acs, tt)] ends like the loop started on empty accumulators, with
    its results appended to [acs] and [tt]. *)
Lemma createActions_loop_acc e ctx out built names :
  ∀ acs tt,
    createActions_loop K e ctx out built names acs tt =
      match createActions_loop K e ctx out built names [] [] with
      | (Return (news, arts), tr) => (Return (acs ++ news, tt ++ arts), tr)
      | (Fail err, tr) => (Fail err, tr)
      | (Panic why, tr) => (Panic why, tr)
      end.
Proof.
  induction names as [|n names IH]; intros acs tt.
  - simpl. by rewrite !app_nil_r.
  - rewrite !createActions_loop_cons.
    destruct (assembleOne K e ctx out built n) as [[r|err|why] t]; try done.
    rewrite !bind_Return_l.
    rewrite (IH (acs ++ [r.1]) (tt ++ r.2)), (IH ([] ++ [r.1]) ([] ++ r.2)).
    destruct (createActions_loop K e ctx out built names [] [])
      as [[[news arts]|err|why] tr]; simpl; try done.
    by rewrite <- !app_assoc.
Qed.

Lemma createActions_Return_inv e ctx out bs names acs tr :
  createActions K e ctx out bs names = (Return acs, tr) →
  ∃ tt tr',
    createActions_loop K e ctx out (indexByImageName bs) names [] []
      = (Return (acs, tt), tr') ∧
    tr = tr' ++ [CallRegisterArtifacts (logger e) tt].
Proof.
  unfold createActions.
  destruct (createActions_loop _ _ _ _ _ _ _ _) as [[[acs' tt]|err|why] tr'];
    simpl; intros [= <- <-]; eauto.
Qed.

(** X7. With no action names, the build composes nothing and returns no
    actions, and it still calls [RegisterArtifacts] once, with no
    artifacts; [PrepareActions] does so after the probe and the start of
    the log streamer, unless the probe fails. *)
Theorem no_names_registers_nothing e ctx out bs :
  createActions K e ctx out bs [] =
    (Return [], [CallRegisterArtifacts (logger e) []]) ∧
  PrepareActions K e ctx out bs [] =
    match FailIfClusterIsNotReachable K (kubectl.KubeContext (kubectl e)) with
    | None =>
        (Return [],
         [CallFailIfClusterIsNotReachable (kubectl.KubeContext (kubectl e));
          CallLoggerStart (logger e) ctx out;
          CallRegisterArtifacts (logger e) []])
    | Some err =>
        (Fail (Wrapping ("unable to connect to Kubernetes: " +:+ errorString err)
                 err),
         [CallFailIfClusterIsNotReachable (kubectl.KubeContext (kubectl e))])
    end.
Proof.
  split; [done|]. unfold PrepareActions.
  by destruct (FailIfClusterIsNotReachable K _).
Qed.


(** X9. In a returned action, every task carries the manifest composed
    for the action, which has the defaulted fields, the client and the
    namespace of the environment, the environment itself, and the
    artifact resolved for its own container. *)
Theorem tasks_share_the_composed_manifest e ctx out bs names acs tr :
  createActions K e ctx out bs names = (Return acs, tr) →
  Forall
    (λ act, ∃ jm,
       defaulted (GetRunID K (labeller e)) jm ∧
       Forall (λ t, taskJobManifest t = jm ∧
                    taskKubectl t = kubectl e ∧
                    taskNamespace t = namespace e ∧
                    taskExecEnv t = e ∧
                    taskArtifact t =
                      getArtifactToDeploy e (indexByImageName bs) (taskCfg t))
              (actionTasks act))
    acs.
Proof.
  intros Hrun.
  pose proof (createActions_batchAtomic K e ctx out bs names) as Hbatch.
  unfold batchAtomic in Hbatch. rewrite Hrun in Hbatch. simpl fst in Hbatch.
  destruct Hbatch as [Hacs _]. clear Hrun.
  induction Hacs as [|n act names acs Hact _ IH]; constructor; [|exact IH].
  destruct Hact as (aCfg & jm & timeout & ff & _ & Hjm & _ & _ & ->).
  exists jm. split.
  - unfold composition in Hjm.
    destruct (latest.KubernetesClusterExecutionMode _) as [mode|]; [|done].
    simpl in Hjm.
    destruct (getJobManifest K e _ _) as [o t] eqn:Hcomp. simpl in Hjm.
    injection Hjm as ->. by apply getJobManifest_Return in Hcomp as [? _].
  - simpl. apply Forall_fmap, Forall_forall. by intros c _.
Qed.

(** X10. Builds compose: when the builds of two lists of names return,
    the build of the two lists one after the other returns the actions
    of the first followed by the actions of the second. *)
Theorem createActions_app e ctx out bs names1 names2 acs1 acs2 tr1 tr2 :
  createActions K e ctx out bs names1 = (Return acs1, tr1) →
  createActions K e ctx out bs names2 = (Return acs2, tr2) →
  (createActions K e ctx out bs (names1 ++ names2)).1 = Return (acs1 ++ acs2).
Proof.
  intros (tt1 & t1 & H1 & _)%createActions_Return_inv
         (tt2 & t2 & H2 & _)%createActions_Return_inv.
  unfold createActions.
  rewrite createActions_loop_app, H1, bind_Return_l. simpl.
  rewrite createActions_loop_acc, H2. done.
Qed.

(** X11. The calls of a build, the registration and its artifacts
    included, do not depend on the built artifacts. *)
Theorem calls_ignore_built_artifacts e ctx out bs bs' names :
  (createActions K e ctx out bs names).2 =
    (createActions K e ctx out bs' names).2.
Proof.
  unfold createActions.
  destruct (createActions_loop_built_irrelevant K e ctx out
              (indexByImageName bs) (indexByImageName bs') names [] [] [] [])
    as [Hf Ht].
  destruct (createActions_loop K e ctx out (indexByImageName bs) names [] [])
    as [[[acs tt]|err|why] t] eqn:H1,
    (createActions_loop K e ctx out (indexByImageName bs') names [] [])
    as [[[acs' tt']|err'|why'] t'] eqn:H2; simpl in *; try done.
  apply createActions_loop_Return in H1 as (_ & _ & _ & ->).
  apply createActions_loop_Return in H2 as (_ & _ & _ & ->).
  by subst.
Qed.
End BatchMore.

(** ** Properties of the tagger multiplexer *)

Section TracedFacts.
Context {E : Type}.

Lemma tbind_Return_l {A B} (a : A) t (k : A → traced E B) :
  tbind (Return a, t) k = ((k a).1, t ++ (k a).2).
Proof. simpl. by destruct (k a). Qed.

Lemma tbind_Return_inv {A B} (m : traced E A) (k : A → traced E B) b t :
  tbind m k = (Return b, t) →
  ∃ a t1 t2, m = (Return a, t1) ∧ k a = (Return b, t2) ∧ t = t1 ++ t2.
Proof.
  unfold tbind. destruct m as [[a|err|why] t1]; try discriminate.
  destruct (k a) as [r t2] eqn:Hk. intros [= -> <-]. eauto 6.
Qed.
End TracedFacts.

Section TaggerFacts.
Context {handles : TagHandles}.
Variable K : tag.Collaborators.

Implicit Types (runCtx : tag.RunContext) (p : tag.Pipeline).
Implicit Types (ts : list tag.Tagger) (image : tag.Artifact).

Lemma getTaggers_loop_spec runCtx policies :
  ∀ acc,
    tag.getTaggers_loop K runCtx policies acc =
      match head (omap (λ t, (tag.getTagger K runCtx t).2) policies) with
      | Some err => inr err
      | None => inl (acc ++ ((λ t, (tag.getTagger K runCtx t).1) <$> policies))
      end.
Proof.
  induction policies as [|t policies IH]; intros acc; simpl.
  - by rewrite app_nil_r.
  - destruct (tag.getTagger K runCtx t) as [tagger [err|]]; simpl; [done|].
    rewrite IH. destruct (head _); [done|]. by rewrite <- app_assoc.
Qed.

(** X12. [getTaggers] makes one tagger per policy, in order; when the
    tagger of a policy cannot be made, it returns the error of the first
    such policy. *)
Theorem getTaggers_first_error_or_all runCtx policies :
  tag.getTaggers K runCtx policies =
    match head (omap (λ t, (tag.getTagger K runCtx t).2) policies) with
    | Some err => inr err
    | None => inl ((λ t, (tag.getTagger K runCtx t).1) <$> policies)
    end.
Proof. unfold tag.getTaggers. by rewrite getTaggers_loop_spec. Qed.

Lemma getTagger_custom runCtx t :
  tag.CustomTag runCtx ≠ EmptyString →
  tag.getTagger K runCtx t = (tag.CustomTagTagger (tag.CustomTag runCtx), None).
Proof. intros Hc. unfold tag.getTagger. by rewrite decide_True. Qed.

(** X13. A custom tag of the run overrides every policy: [getTaggers]
    makes the custom-tag tagger for each policy, whatever the policy
    says, and makes no error. *)
Theorem custom_tag_overrides_policies runCtx policies :
  tag.CustomTag runCtx ≠ EmptyString →
  tag.getTaggers K runCtx policies =
    inl (replicate (length policies) (tag.CustomTagTagger (tag.CustomTag runCtx))).
Proof.
  intros Hc. unfold tag.getTaggers. rewrite getTaggers_loop_spec.
  assert (omap (λ t, (tag.getTagger K runCtx t).2) policies = []) as ->.
  { induction policies as [|t policies IH]; [done|]. simpl.
    by rewrite getTagger_custom. }
  simpl. f_equal.
  induction policies as [|t policies IH]; [done|]. simpl.
  rewrite getTagger_custom by done. simpl. by f_equal.
Qed.

(** *** The components of a custom template *)

Lemma CreateComponents_case_error runCtx name c err :
  tag.CreateComponents_case K runCtx name c = inr err →
  componentError K name c err.
Proof.
  unfold tag.CreateComponents_case, componentError.
  destruct (tag.EnvTemplateTagger c); [done|].
  destruct (tag.ShaTagger c); [done|].
  destruct (tag.GitTagger c); [done|].
  destruct (tag.DateTimeTagger c); [done|].
  destruct (tag.InputDigest c); [done|].
  destruct (tag.CustomTemplateTagger c); intros [= <-]; auto.
Qed.

Lemma CreateComponents_loop_inl runCtx cs :
  ∀ acc components,
    tag.CreateComponents_loop K runCtx cs acc = inl components →
    NoDup (tag.Name <$> cs) ∧
    Forall (λ n, acc !! n = None) (tag.Name <$> cs) ∧
    dom components = dom acc ∪ list_to_set (tag.Name <$> cs) ∧
    (∀ n, n ∉ tag.Name <$> cs → components !! n = acc !! n) ∧
    Forall (λ tc, ∃ tagger,
              tag.CreateComponents_case K runCtx (tag.Name tc) (tag.Component tc)
                = inl tagger ∧
              components !! tag.Name tc = Some tagger) cs.
Proof.
  induction cs as [|tc cs IH]; intros acc components; simpl.
  - intros [= <-]. repeat split; try constructor. set_solver.
  - destruct (acc !! tag.Name tc) eqn:Hacc; [done|].
    destruct (tag.CreateComponents_case K runCtx _ _) as [tagger|err] eqn:Hcase;
      [|done].
    intros (Hnd & Hfresh & Hdom & Hother & Hall)%IH.
    assert (tag.Name tc ∉ tag.Name <$> cs) as Hnotin.
    { intros Hin. rewrite Forall_forall in Hfresh.
      specialize (Hfresh _ Hin). by rewrite lookup_insert_eq in Hfresh. }
    repeat split.
    + by constructor.
    + constructor; [done|]. eapply Forall_impl; [exact Hfresh|]. simpl.
      intros n Hn. destruct (decide (tag.Name tc = n)) as [<-|Hne].
      * by rewrite lookup_insert_eq in Hn.
      * by rewrite lookup_insert_ne in Hn.
    + rewrite Hdom, dom_insert_L. set_solver.
    + intros n Hn. rewrite not_elem_of_cons in Hn. destruct Hn as [Hne Hn].
      rewrite Hother by done. by rewrite lookup_insert_ne.
    + constructor; [|done]. exists tagger. split; [done|].
      rewrite Hother by done. apply lookup_insert_eq.
Qed.

(** X14. When [CreateComponents] returns its map, the names of the
    components are pairwise distinct, the keys of the map are these
    names, and each name maps to the tagger made for its component, also
    when the constructor of that tagger reported an error: the switch
    drops those errors. *)
Theorem CreateComponents_returns_all_components runCtx t components :
  tag.CreateComponents K runCtx t = inl components →
  NoDup (tag.Name <$> tag.Components t) ∧
  dom components = list_to_set (tag.Name <$> tag.Components t) ∧
  Forall (λ tc, ∃ tagger,
            tag.CreateComponents_case K runCtx (tag.Name tc) (tag.Component tc)
              = inl tagger ∧
            components !! tag.Name tc = Some tagger) (tag.Components t).
Proof.
  intros (Hnd & _ & Hdom & _ & Hall)%CreateComponents_loop_inl.
  repeat split; try done. rewrite Hdom. set_solver.
Qed.

Lemma CreateComponents_loop_inr runCtx cs :
  ∀ acc err,
    tag.CreateComponents_loop K runCtx cs acc = inr err →
    ∃ tc, tc ∈ cs ∧ componentError K (tag.Name tc) (tag.Component tc) err.
Proof.
  induction cs as [|tc cs IH]; intros acc err; simpl; [done|].
  destruct (acc !! tag.Name tc).
  { intros [= <-]. exists tc. split; [set_solver|]. by left. }
  destruct (tag.CreateComponents_case K runCtx _ _) as [tagger|err'] eqn:Hcase.
  - intros (tc' & Hin & Herr)%IH. exists tc'. split; [set_solver|done].
  - intros [= <-]. exists tc. split; [set_solver|].
    by apply (CreateComponents_case_error runCtx).
Qed.

(** X15. The only errors of [CreateComponents] are its own three, each
    about one of the components given: a name used twice, a nested
    custom template, a component of no known kind. It never returns the
    error of a constructor. *)
Theorem CreateComponents_errors_are_its_own runCtx t err :
  tag.CreateComponents K runCtx t = inr err →
  ∃ tc, tc ∈ tag.Components t ∧
        componentError K (tag.Name tc) (tag.Component tc) err.
Proof. apply CreateComponents_loop_inr. Qed.
End TaggerFacts.

Section MuxFacts.
Context {handles : TagHandles}.
Variable K : tag.Collaborators.

Implicit Types (runCtx : tag.RunContext) (p : tag.Pipeline).
Implicit Types (ts : list tag.Tagger) (image : tag.Artifact) (img : string).

Lemma NewTaggerMux_artifacts_lookup t ts arts :
  ∀ m mAll img,
    (tag.NewTaggerMux_artifacts t ts arts (m, mAll)).1 !! img =
      (if decide (img ∈ tag.ImageName <$> arts) then Some t else m !! img) ∧
    (tag.NewTaggerMux_artifacts t ts arts (m, mAll)).2 !! img =
      (if decide (img ∈ tag.ImageName <$> arts) then Some ts else mAll !! img).
Proof.
  unfold tag.NewTaggerMux_artifacts.
  induction arts as [|a arts IH]; intros m mAll img; simpl; [done|].
  destruct (IH (<[tag.ImageName a := t]> m) (<[tag.ImageName a := ts]> mAll) img)
    as [-> ->].
  destruct (decide (img ∈ tag.ImageName <$> arts)) as [Hin|Hnotin].
  - rewrite !decide_True by (by right). done.
  - destruct (decide (img = tag.ImageName a)) as [->|Hne].
    + rewrite !decide_True by (by left). by rewrite !lookup_insert_eq.
    + rewrite !decide_False by (by intros [?|?]%elem_of_cons).
      by rewrite !lookup_insert_ne.
Qed.

Lemma stopsAt_None runCtx p :
  stopsAt K runCtx p = None →
  ∃ t ts, tag.getTaggers K runCtx (tag.TagPolicies (tag.Build p)) = inl (t :: ts) ∧
          taggersOf K runCtx p = t :: ts.
Proof.
  unfold stopsAt, taggersOf.
  destruct (tag.getTaggers K runCtx _) as [[|t ts]|err]; try done. eauto.
Qed.

Lemma NewTaggerMux_loop_Return runCtx pipelines :
  ∀ m sl allTs mAll mux,
    tag.NewTaggerMux_loop K runCtx pipelines m sl allTs mAll = Return mux →
    Forall (λ p, stopsAt K runCtx p = None) pipelines ∧
    tag.taggers mux =
      sl ++ ((λ p, default tag.NilTagger (head (taggersOf K runCtx p)))
               <$> pipelines) ∧
    tag.allTaggers mux = allTs ++ (taggersOf K runCtx <$> pipelines) ∧
    (∀ img, tag.allTaggersByImageName mux !! img =
              match last (filter (declares img) pipelines) with
              | Some p => Some (taggersOf K runCtx p)
              | None => mAll !! img
              end) ∧
    (∀ img, tag.byImageName mux !! img =
              match last (filter (declares img) pipelines) with
              | Some p => head (taggersOf K runCtx p)
              | None => m !! img
              end).
Proof.
  induction pipelines as [|p pipelines IH]; intros m sl allTs mAll mux; simpl.
  - intros [= <-]. simpl. by rewrite !app_nil_r.
  - destruct (tag.getTaggers K runCtx _) as [[|t ts]|err] eqn:Hts; try done.
    destruct (tag.NewTaggerMux_artifacts _ _ _ _) as [m' mAll'] eqn:Harts.
    intros (Hall & Hsl & HallTs & HmAll & Hm)%IH.
    assert (taggersOf K runCtx p = t :: ts) as Hof
      by (unfold taggersOf; by rewrite Hts).
    assert (stopsAt K runCtx p = None) as Hstop
      by (unfold stopsAt; by rewrite Hts).
    split; [by constructor|]. rewrite Hsl, HallTs, Hof, <- !app_assoc. simpl.
    split; [done|]. split; [done|].
    split; intros img;
      pose proof (NewTaggerMux_artifacts_lookup t (t :: ts)
                    (tag.Artifacts (tag.Build p)) m mAll img) as [Hm' HmAll'];
      rewrite Harts in Hm', HmAll'; simpl in Hm', HmAll'.
    + rewrite HmAll, filter_cons.
      destruct (decide (declares img p)) as [Hd|Hd].
      * rewrite last_cons. destruct (last _); [done|].
        by rewrite HmAll', decide_True, Hof.
      * destruct (last _); [done|]. by rewrite HmAll', decide_False.
    + rewrite Hm, filter_cons.
      destruct (decide (declares img p)) as [Hd|Hd].
      * rewrite last_cons. destruct (last _); [done|].
        by rewrite Hm', decide_True, Hof.
      * destruct (last _); [done|]. by rewrite Hm', decide_False.
Qed.

Lemma NewTaggerMux_loop_failure runCtx pipelines :
  ∀ m sl allTs mAll,
    failure (tag.NewTaggerMux_loop K runCtx pipelines m sl allTs mAll) =
      head (omap (stopsAt K runCtx) pipelines).
Proof.
  induction pipelines as [|p pipelines IH]; intros m sl allTs mAll; simpl; [done|].
  unfold stopsAt at 1.
  destruct (tag.getTaggers K runCtx _) as [[|t ts]|err]; try done.
  destruct (tag.NewTaggerMux_artifacts _ _ _ _) as [m' mAll']. apply IH.
Qed.

(** X16. [NewTaggerMux] returns a multiplexer unless a pipeline stops it,
    and the first pipeline that does decides how: a pipeline one of whose
    taggers cannot be made, with the error of that tagger wrapped as
    "creating tagger"; a pipeline without tag policies, with the panic of
    the index into its empty slice of taggers. *)
Theorem NewTaggerMux_stops_at_first_bad_pipeline runCtx :
  failure (tag.NewTaggerMux K runCtx) =
    head (omap (stopsAt K runCtx) (tag.GetPipelines runCtx)) ∧
  ∀ artifacts,
    stopsAt K runCtx
      {| tag.Build := {| tag.TagPolicies := []; tag.Artifacts := artifacts |} |}
    = Some (inr "index out of range [0] with length 0").
Proof. split; [apply NewTaggerMux_loop_failure|done]. Qed.

(** X17. In the multiplexer that [NewTaggerMux] returns, an image name
    maps to the taggers of the last pipeline that declares an artifact of
    that name, and its default tagger is the first of them; an image name
    no pipeline declares is in neither map. *)
Theorem NewTaggerMux_last_pipeline_wins runCtx mux img :
  tag.NewTaggerMux K runCtx = Return mux →
  tag.allTaggersByImageName mux !! img =
    taggersOf K runCtx <$> last (filter (declares img) (tag.GetPipelines runCtx)) ∧
  tag.byImageName mux !! img =
    last (filter (declares img) (tag.GetPipelines runCtx))
      ≫= (λ p, head (taggersOf K runCtx p)).
Proof.
  intros (_ & _ & _ & HmAll & Hm)%NewTaggerMux_loop_Return.
  rewrite HmAll, Hm. by destruct (last _).
Qed.

Lemma NewTaggerMux_maps_agree runCtx mux img :
  tag.NewTaggerMux K runCtx = Return mux →
  match tag.allTaggersByImageName mux !! img with
  | Some ts => ∃ t rest, ts = t :: rest ∧ tag.byImageName mux !! img = Some t
  | None => tag.byImageName mux !! img = None
  end.
Proof.
  intros (Hall & _ & _ & HmAll & Hm)%NewTaggerMux_loop_Return.
  rewrite HmAll, Hm.
  destruct (last _) as [p|] eqn:Hlast; [|done].
  apply last_Some_elem_of, list_elem_of_filter in Hlast as [_ Hp].
  rewrite Forall_forall in Hall.
  destruct (stopsAt_None runCtx p (Hall p Hp)) as (t & ts & _ & ->). eauto.
Qed.

(** X18. The two maps of the multiplexer that [NewTaggerMux] returns
    agree: they have the same image names, no image name has an empty
    list of taggers, and the default tagger of an image name is the first
    of all its taggers. *)
Theorem NewTaggerMux_default_is_first_of_all runCtx mux img :
  tag.NewTaggerMux K runCtx = Return mux →
  match tag.allTaggersByImageName mux !! img with
  | Some ts => ∃ t rest, ts = t :: rest ∧ tag.byImageName mux !! img = Some t
  | None => tag.byImageName mux !! img = None
  end.
Proof. apply NewTaggerMux_maps_agree. Qed.

(** X19. The two slices of the multiplexer that [NewTaggerMux] returns
    begin with one nil entry per pipeline, left by [make], and go on
    with the default tagger, respectively all the taggers, of each
    pipeline: they are twice as long as the list of pipelines. *)
Theorem NewTaggerMux_slices runCtx mux :
  tag.NewTaggerMux K runCtx = Return mux →
  let n := length (tag.GetPipelines runCtx) in
  tag.taggers mux =
    replicate n tag.NilTagger ++
    ((λ p, default tag.NilTagger (head (taggersOf K runCtx p)))
       <$> tag.GetPipelines runCtx) ∧
  tag.allTaggers mux =
    replicate n [] ++ (taggersOf K runCtx <$> tag.GetPipelines runCtx) ∧
  length (tag.taggers mux) = 2 * n ∧
  length (tag.allTaggers mux) = 2 * n.
Proof.
  intros (_ & Hsl & HallTs & _ & _)%NewTaggerMux_loop_Return n.
  rewrite Hsl, HallTs. repeat split.
  - rewrite length_app, length_replicate, length_fmap. lia.
  - rewrite length_app, length_replicate, length_fmap. lia.
Qed.
End MuxFacts.

Section GenerateFacts.
Context {handles : TagHandles}.
Variable K : tag.Collaborators.

Implicit Types (runCtx : tag.RunContext) (t : tag.TaggerMux) (ctx : TagCtx).
Implicit Types (ts : list tag.Tagger) (image : tag.Artifact).

Lemma callGenerateTag_Return tagger ctx image tg tr :
  tag.callGenerateTag K tagger ctx image = (Return tg, tr) →
  gives K ctx image tagger tg ∧ tr = [tag.CallGenerateTag tagger ctx image].
Proof.
  unfold gives. destruct tagger; simpl; try discriminate;
    intros [= -> <-]; done.
Qed.

Lemma callGenerateTag_gives tagger ctx image tg :
  gives K ctx image tagger tg →
  tag.callGenerateTag K tagger ctx image =
    (Return tg, [tag.CallGenerateTag tagger ctx image]).
Proof.
  intros [Hnil Hcall]. destruct tagger; try done;
    unfold tag.callGenerateTag, tcall; by rewrite Hcall.
Qed.

Lemma GenerateTags_loop_Return ctx image ts :
  ∀ acc tags tr,
    tag.GenerateTags_loop K ctx image ts acc = (Return tags, tr) →
    ∃ news, tags = acc ++ news ∧
            Forall2 (gives K ctx image) ts news ∧
            tr = generateTagCalls ctx image ts.
Proof.
  induction ts as [|tagger ts IH]; intros acc tags tr; simpl.
  - intros [= <- <-]. exists []. by rewrite app_nil_r.
  - intros (tg & t1 & t2 & Hcall & Hrest & ->)%tbind_Return_inv.
    apply callGenerateTag_Return in Hcall as [Hgives ->].
    apply IH in Hrest as (news & -> & Hnews & ->).
    exists (tg :: news). rewrite <- app_assoc. split; [done|].
    split; [by constructor|done].
Qed.

Lemma GenerateTags_loop_stops ctx image before tagger after x :
  ∀ acc,
    Forall (λ tg, ∃ s, gives K ctx image tg s) before →
    tagger ≠ tag.NilTagger →
    failure (tag.taggerGenerateTag K tagger ctx image) = Some x →
    failure (tag.GenerateTags_loop K ctx image (before ++ tagger :: after) acc).1
      = Some x ∧
    (tag.GenerateTags_loop K ctx image (before ++ tagger :: after) acc).2
      = generateTagCalls ctx image (before ++ [tagger]).
Proof.
  induction before as [|tg before IH]; intros acc Hbefore Hnil Hfail; simpl.
  - destruct tagger; try done; simpl;
      destruct (tag.taggerGenerateTag K _ ctx image); simpl in *; done.
  - apply Forall_cons in Hbefore as [[s Hs] Hbefore].
    rewrite (callGenerateTag_gives _ _ _ _ Hs), tbind_Return_l. simpl.
    destruct (IH (acc ++ [s]) Hbefore Hnil Hfail) as [-> ->]. done.
Qed.

(** X20. When [GenerateTags] returns, it returns one tag per tagger of
    the image, in the order of the taggers, each the tag its tagger
    gave, and it called each tagger once, in that order. *)
Theorem GenerateTags_one_tag_per_tagger t ctx image ts tags tr :
  tag.allTaggersByImageName t !! tag.ImageName image = Some ts →
  tag.GenerateTags K t ctx image = (Return tags, tr) →
  Forall2 (gives K ctx image) ts tags ∧
  tr = generateTagCalls ctx image ts.
Proof.
  intros Hts. unfold tag.GenerateTags. rewrite Hts.
  intros (news & -> & Hnews & ->)%GenerateTags_loop_Return. done.
Qed.

(** X21. [GenerateTags] stops at the first tagger that fails: it ends
    the way that tagger did, returns no tags, and calls no tagger after
    it. *)
Theorem GenerateTags_stops_at_first_failure
    t ctx image before tagger after x :
  tag.allTaggersByImageName t !! tag.ImageName image
    = Some (before ++ tagger :: after) →
  Forall (λ tg, ∃ s, gives K ctx image tg s) before →
  tagger ≠ tag.NilTagger →
  failure (tag.taggerGenerateTag K tagger ctx image) = Some x →
  failure (tag.GenerateTags K t ctx image).1 = Some x ∧
  (tag.GenerateTags K t ctx image).2 =
    generateTagCalls ctx image (before ++ [tagger]).
Proof.
  intros Hts. unfold tag.GenerateTags. rewrite Hts.
  apply GenerateTags_loop_stops.
Qed.

(** X22. On a multiplexer that [NewTaggerMux] returned, [GenerateTag]
    calls the tagger that [GenerateTags] calls first, and no other. *)
Theorem GenerateTag_calls_first_of_GenerateTags runCtx t ctx image :
  tag.NewTaggerMux K runCtx = Return t →
  (tag.GenerateTag K t ctx image).2 = take 1 (tag.GenerateTags K t ctx image).2.
Proof.
  intros Hmux.
  pose proof (NewTaggerMux_maps_agree K runCtx t (tag.ImageName image) Hmux)
    as Hagree.
  unfold tag.GenerateTag, tag.GenerateTags.
  destruct (tag.allTaggersByImageName t !! _) as [ts|].
  - destruct Hagree as (tagger & rest & -> & ->). simpl.
    destruct tagger; simpl; try done;
      destruct (tag.taggerGenerateTag K _ ctx image); simpl; try done;
      by destruct (tag.GenerateTags_loop K ctx image rest _).
  - by rewrite Hagree.
Qed.

(** X23. On a multiplexer that [NewTaggerMux] returned, an image that no
    pipeline declares has no tagger: both methods fail with their error
    naming the image, and call no tagger. *)
Theorem undeclared_image_has_no_tagger runCtx t ctx image :
  tag.NewTaggerMux K runCtx = Return t →
  Forall (λ p, ¬ declares (tag.ImageName image) p) (tag.GetPipelines runCtx) →
  tag.GenerateTag K t ctx image =
    (Fail (Error ("no valid tagger found for artifact: "
                  +:+ tag.Quote K (tag.ImageName image))), []) ∧
  tag.GenerateTags K t ctx image =
    (Fail (Error ("no valid taggers found for artifact: "
                  +:+ tag.Quote K (tag.ImageName image))), []).
Proof.
  intros (_ & _ & _ & HmAll & Hm)%NewTaggerMux_loop_Return Hnone.
  assert (filter (declares (tag.ImageName image)) (tag.GetPipelines runCtx) = [])
    as Hfilter.
  { clear HmAll Hm. induction Hnone as [|p ps Hp _ IH]; [done|].
    rewrite filter_cons_False by exact Hp. exact IH. }
  unfold tag.GenerateTag, tag.GenerateTags.
  by rewrite HmAll, Hm, Hfilter.
Qed.
End GenerateFacts.

(** ** Properties of [CreateManifestList] *)

Section DockerFacts.
Context {handles : DockerHandles}.
Variable K : docker.Collaborators.

Implicit Types (images : list docker.SinglePlatformImage).
Implicit Types (adds : list docker.IndexAddendum).
Implicit Types (refs : list Reference) (imgs : list RemoteImage).

Lemma CreateManifestList_loop_fetched images :
  ∀ refs imgs (filled pending : list docker.IndexAddendum),
    allFetched K images refs imgs →
    (length images ≤ length pending)%nat →
    docker.CreateManifestList_loop K (length filled) images (filled ++ pending) =
      (Return (filled ++ zip_with addendum images imgs
                 ++ drop (length images) pending),
       fetches refs).
Proof.
  induction images as [|image images IH];
    intros refs imgs filled pending [Hrefs Himgs] Hlen.
  - apply Forall2_nil_inv_l in Hrefs as ->.
    apply Forall2_nil_inv_l in Himgs as ->. done.
  - apply Forall2_cons_inv_l in Hrefs as (ref & refs' & Href & Hrefs & ->).
    apply Forall2_cons_inv_l in Himgs as (img & imgs' & Himg & Himgs & ->).
    destruct pending as [|slot pending]; [simpl in Hlen; lia|].
    simpl in Hlen. simpl. rewrite Href. simpl. rewrite Himg. simpl.
    rewrite insert_app_r_alt, Nat.sub_diag by lia. simpl.
    replace (filled ++ _ :: pending) with
      ((filled ++ [addendum image img]) ++ pending)
      by (by rewrite <- app_assoc).
    replace (S (length filled)) with (length (filled ++ [addendum image img]))
      by (rewrite length_app; simpl; lia).
    rewrite (IH refs' imgs') by (done || lia).
    by rewrite <- !app_assoc.
Qed.

Lemma CreateManifestList_loop_fails before :
  ∀ image after refs imgs err tried i adds,
    allFetched K before refs imgs →
    fetchFails K image err tried →
    docker.CreateManifestList_loop K i (before ++ image :: after) adds =
      (Fail err, fetches (refs ++ tried)).
Proof.
  induction before as [|b before IH];
    intros image after refs imgs err tried i adds [Hrefs Himgs] Hfail.
  - apply Forall2_nil_inv_l in Hrefs as ->. simpl.
    destruct Hfail as [[-> ->]|(ref & -> & Hget & ->)]; simpl; [done|].
    by rewrite Hget.
  - apply Forall2_cons_inv_l in Hrefs as (ref & refs' & Href & Hrefs & ->).
    apply Forall2_cons_inv_l in Himgs as (img & imgs' & Himg & Himgs & ->).
    simpl. rewrite Href. simpl. rewrite Himg. simpl.
    by rewrite (IH image after refs' imgs' err tried).
Qed.

(** Either every image is fetched, or there is a first one that is not. *)
Lemma fetched_or_not images :
  (∃ refs imgs, allFetched K images refs imgs) ∨
  (∃ before image after refs imgs err tried,
     images = before ++ image :: after ∧
     allFetched K before refs imgs ∧ fetchFails K image err tried).
Proof.
  induction images as [|image images IH].
  - left. exists [], []. by split.
  - destruct (docker.name_ParseReference K (docker.Image image))
      as [ref|err] eqn:Href.
    2: { right. exists [], image, images, [], [], err, [].
         split; [done|]. split; [by split|]. by left. }
    destruct (docker.remote_Image K ref) as [img|err] eqn:Himg.
    2: { right. exists [], image, images, [], [], err, [ref].
         split; [done|]. split; [by split|]. right. eauto. }
    destruct IH as [(refs & imgs & Hrefs & Himgs)
                   |(before & bad & after & refs & imgs & err & tried
                     & -> & [Hrefs Himgs] & Hfail)].
    + left. exists (ref :: refs), (img :: imgs). split; by constructor.
    + right. exists (image :: before), bad, after, (ref :: refs), (img :: imgs),
        err, tried.
      split; [done|]. split; [|done]. split; by constructor.
Qed.

Lemma allFetched_length images refs imgs :
  allFetched K images refs imgs →
  length refs = length images ∧ length imgs = length images.
Proof.
  intros [Hrefs%Forall2_length Himgs%Forall2_length]. lia.
Qed.

Lemma CreateManifestList_fetched images targetTag refs imgs :
  allFetched K images refs imgs →
  docker.CreateManifestList K images targetTag =
    tbind (Return (zip_with addendum images imgs), fetches refs)
      (λ adds,
         let idx := docker.mutate_AppendManifests K adds in
         do! targetRef :=
           (docker.ofResult (docker.name_ParseReference K targetTag), []) in
         do! _ := tcall (docker.CallWriteIndex targetRef idx)
                    (match docker.remote_WriteIndex K targetRef idx with
                     | Some err => Fail err
                     | None => Return tt
                     end) in
         do! h := (docker.ofResult (docker.Digest K idx), []) in
         let dig := docker.HashString K h in
         do! _ := tcall (docker.CallLogPrintf (createdLine K targetRef h))
                    (Return tt) in
         do! parsed :=
           (docker.ofResult (docker.ParseReference K targetTag), []) in
         tret (docker.BaseName parsed +:+ ":" +:+ docker.Tag parsed
               +:+ "@" +:+ dig)).
Proof.
  intros Hall. unfold docker.CreateManifestList.
  pose proof (CreateManifestList_loop_fetched images refs imgs []
                (replicate (length images) docker.zeroAddendum) Hall) as Hloop.
  simpl in Hloop. rewrite Hloop by (by rewrite length_replicate).
  rewrite drop_replicate, Nat.sub_diag. simpl. by rewrite app_nil_r.
Qed.

(** X24. When [CreateManifestList] returns, every image was fetched, in
    order, each slot of the index holds the image fetched for it with
    the platform declared for it, the index was written once at the
    target reference, after the fetches, and the result is the base name
    and the tag of the target with the digest of that index. *)
Theorem CreateManifestList_returns_digest_of_written_index
    images targetTag s tr :
  docker.CreateManifestList K images targetTag = (Return s, tr) →
  ∃ refs imgs targetRef h parsed,
    allFetched K images refs imgs ∧
    docker.name_ParseReference K targetTag = inl targetRef ∧
    docker.remote_WriteIndex K targetRef (indexOf K images imgs) = None ∧
    docker.Digest K (indexOf K images imgs) = inl h ∧
    docker.ParseReference K targetTag = inl parsed ∧
    s = docker.BaseName parsed +:+ ":" +:+ docker.Tag parsed +:+ "@"
        +:+ docker.HashString K h ∧
    tr = fetches refs ++
         [docker.CallWriteIndex targetRef (indexOf K images imgs);
          docker.CallLogPrintf (createdLine K targetRef h)].
Proof.
  destruct (fetched_or_not images)
    as [(refs & imgs & Hall)
       |(before & bad & after & refs & imgs & err & tried & -> & Hall & Hfail)].
  - rewrite (CreateManifestList_fetched _ _ refs imgs Hall). simpl.
    fold (indexOf K images imgs).
    destruct (docker.name_ParseReference K targetTag) as [targetRef|?];
      simpl; [|done].
    destruct (docker.remote_WriteIndex K targetRef _) eqn:Hwrite; simpl; [done|].
    destruct (docker.Digest K _) as [h|?] eqn:Hdig; simpl; [|done].
    destruct (docker.ParseReference K targetTag) as [parsed|?]; simpl; [|done].
    intros [= <- <-]. exists refs, imgs, targetRef, h, parsed.
    repeat split; try done. apply Hall. apply Hall.
  - unfold docker.CreateManifestList.
    by rewrite (CreateManifestList_loop_fails before bad after refs imgs err tried).
Qed.

(** X25. The first image that cannot be fetched ends the call with its
    error: no later image is fetched and the index is not written. *)
Theorem CreateManifestList_stops_at_first_failed_image
    before image after targetTag refs imgs err tried :
  allFetched K before refs imgs →
  fetchFails K image err tried →
  docker.CreateManifestList K (before ++ image :: after) targetTag =
    (Fail err, fetches (refs ++ tried)).
Proof.
  intros Hall Hfail. unfold docker.CreateManifestList.
  by rewrite (CreateManifestList_loop_fails before image after refs imgs err tried).
Qed.

(** X26. In every run the index is written at most once, and only after
    every image was fetched: the calls are fetches, one per image and in
    order as far as they go, then possibly the write of the index, then
    possibly the log line. *)
Theorem CreateManifestList_writes_once_after_all_fetches images targetTag :
  ∃ refs rest,
    (docker.CreateManifestList K images targetTag).2 = fetches refs ++ rest ∧
    (length refs ≤ length images)%nat ∧
    (rest = [] ∨
     length refs = length images ∧
     ∃ targetRef idx,
       rest = [docker.CallWriteIndex targetRef idx] ∨
       ∃ line, rest = [docker.CallWriteIndex targetRef idx;
                       docker.CallLogPrintf line]).
Proof.
  destruct (fetched_or_not images)
    as [(refs & imgs & Hall)
       |(before & bad & after & refs & imgs & err & tried & -> & Hall & Hfail)].
  - rewrite (CreateManifestList_fetched _ _ refs imgs Hall). simpl.
    destruct (allFetched_length _ _ _ Hall) as [Hlen _].
    exists refs.
    destruct (docker.name_ParseReference K targetTag) as [targetRef|?]; simpl.
    2: { exists []. split; [done|]. split; [lia|by left]. }
    destruct (docker.remote_WriteIndex K targetRef _); simpl.
    { eexists. split; [done|]. split; [lia|]. right. eauto 6. }
    destruct (docker.Digest K _) as [h|?]; simpl.
    2: { eexists. split; [done|]. split; [lia|]. right. eauto 6. }
    destruct (docker.ParseReference K targetTag) as [parsed|?]; simpl;
      (eexists; split; [done|]; split; [lia|]; right; eauto 8).
  - unfold docker.CreateManifestList.
    rewrite (CreateManifestList_loop_fails before bad after refs imgs err tried)
      by done.
    simpl. destruct (allFetched_length _ _ _ Hall) as [Hlen _].
    exists (refs ++ tried), []. rewrite app_nil_r. split; [done|].
    split; [|by left]. rewrite !length_app. simpl.
    destruct Hfail as [[_ ->]|(ref & _ & _ & ->)]; simpl; lia.
Qed.

(** X27. An error after the write leaves the index written: when every
    image is fetched and the index is written at the target, a digest
    that cannot be taken makes the call return that error, after the
    write. *)
Theorem CreateManifestList_digest_error_after_write
    images targetTag refs imgs targetRef err :
  allFetched K images refs imgs →
  docker.name_ParseReference K targetTag = inl targetRef →
  docker.remote_WriteIndex K targetRef (indexOf K images imgs) = None →
  docker.Digest K (indexOf K images imgs) = inr err →
  docker.CreateManifestList K images targetTag =
    (Fail err,
     fetches refs ++ [docker.CallWriteIndex targetRef (indexOf K images imgs)]).
Proof.
  intros Hall Htarget Hwrite Hdigest.
  rewrite (CreateManifestList_fetched _ _ refs imgs Hall). simpl.
  fold (indexOf K images imgs). rewrite Htarget. simpl. rewrite Hwrite. simpl.
  by rewrite Hdigest.
Qed.

(** X28. The target is parsed twice, by two parsers, the second time
    after the write and the log line: a target that only the second
    parser refuses makes the call return that error with the index
    written. *)
Theorem CreateManifestList_second_parse_error_after_write
    images targetTag refs imgs targetRef h err :
  allFetched K images refs imgs →
  docker.name_ParseReference K targetTag = inl targetRef →
  docker.remote_WriteIndex K targetRef (indexOf K images imgs) = None →
  docker.Digest K (indexOf K images imgs) = inl h →
  docker.ParseReference K targetTag = inr err →
  docker.CreateManifestList K images targetTag =
    (Fail err,
     fetches refs ++
     [docker.CallWriteIndex targetRef (indexOf K images imgs);
      docker.CallLogPrintf (createdLine K targetRef h)]).
Proof.
  intros Hall Htarget Hwrite Hdigest Hparse.
  rewrite (CreateManifestList_fetched _ _ refs imgs Hall). simpl.
  fold (indexOf K images imgs). rewrite Htarget. simpl. rewrite Hwrite. simpl.
  rewrite Hdigest. simpl. by rewrite Hparse.
Qed.
End DockerFacts.

(** ** The further properties in the concrete environment *)

Section ConcreteMore.
Import Scenario EdgeCases.
#[local] Existing Instance Scenario.handles.

Lemma returned_actions_bear_requested_names_witness :
  ∃ acs tr,
    createActions K0 e1 tt "stdout" built ["verify"; "stored"] = (Return acs, tr) ∧
    actionName <$> acs = ["verify"; "stored"].
Proof.
  eexists _, _. split; [vm_compute; reflexivity|].
  eapply (returned_actions_bear_requested_names K0 tt "minikube" "run-1" "staging"
            {[ "LOG" := "debug" ]} [verify; stored; untimed; verifyAgain]
            tt "stdout" built ["verify"; "stored"]).
  vm_compute; reflexivity.
Defined.

Lemma setDefaultValues_idempotent_witness :
  ∃ j, setDefaultValues K0 e0 (Some storedJob) = (Return j, []) ∧
       setDefaultValues K0 e0 (Some j) = (Return j, []).
Proof.
  eexists. split; [vm_compute; reflexivity|].
  eapply (setDefaultValues_idempotent K0 e0 (Some storedJob)).
  vm_compute; reflexivity.
Defined.

Lemma getJobManifest_errors_are_collaborator_errors_witness :
  let err := Error "open /no/such/job.yaml: no such file or directory" in
  getJobManifest K0 e0 "/no/such/job.yaml" "{}"
    = (Fail err, [CallLoadFromPath "/no/such/job.yaml"]) ∧
  (("/no/such/job.yaml" ≠ EmptyString ∧
    LoadFromPath K0 "/no/such/job.yaml" = inr err ∧
    [CallLoadFromPath "/no/such/job.yaml"] = [CallLoadFromPath "/no/such/job.yaml"]) ∨
   ("{}" ≠ EmptyString ∧
    ∃ base ev,
      getBaseJobManifest K0 e0 "/no/such/job.yaml" = (Return base, [ev]) ∧
      ApplyOverrides K0 base "{}" = inr err ∧
      [CallLoadFromPath "/no/such/job.yaml"] = [ev; CallApplyOverrides base "{}"])).
Proof.
  intros err. split; [vm_compute; reflexivity|].
  apply (getJobManifest_errors_are_collaborator_errors K0 e0).
  vm_compute; reflexivity.
Defined.


Lemma tasks_share_the_composed_manifest_witness :
  ∃ acs tr,
    createActions K0 e0 tt "stdout" built ["stored"] = (Return acs, tr) ∧
    Forall
      (λ act, ∃ jm,
         defaulted (GetRunID K0 (labeller e0)) jm ∧
         Forall (λ t, taskJobManifest t = jm ∧
                      taskKubectl t = kubectl e0 ∧
                      taskNamespace t = namespace e0 ∧
                      taskExecEnv t = e0 ∧
                      taskArtifact t =
                        getArtifactToDeploy e0 (indexByImageName built) (taskCfg t))
                (actionTasks act))
      acs.
Proof.
  eexists _, _. split; [vm_compute; reflexivity|].
  eapply (tasks_share_the_composed_manifest K0 e0 tt "stdout" built ["stored"]).
  vm_compute; reflexivity.
Defined.

Lemma createActions_app_witness :
  ∃ acs1 acs2,
    (createActions K0 e0 tt "stdout" built ["stored"]).1 = Return acs1 ∧
    (createActions K0 e0 tt "stdout" built ["verify"]).1 = Return acs2 ∧
    (createActions K0 e0 tt "stdout" built (["stored"] ++ ["verify"])).1 =
      Return (acs1 ++ acs2).
Proof.
  eexists _, _. split; [vm_compute; reflexivity|]. split; [vm_compute; reflexivity|].
  eapply (createActions_app K0 e0 tt "stdout" built ["stored"] ["verify"]);
    vm_compute; reflexivity.
Defined.
End ConcreteMore.

Section ConcreteTag.
Import TagScenario.
#[local] Existing Instance TagScenario.handles.

Lemma custom_tag_overrides_policies_witness :
  tag.getTaggers K0 (runCtx "v9" pipelines) [sha; noPolicy; git] =
    inl (replicate 3 (tag.CustomTagTagger "v9")).
Proof.
  apply (custom_tag_overrides_policies K0 (runCtx "v9" pipelines)
           [sha; noPolicy; git]).
  vm_compute. discriminate.
Defined.

Lemma CreateComponents_returns_all_components_witness :
  ∃ cs,
    tag.CreateComponents K0 (runCtx EmptyString [])
      (tag.Build_CustomTemplateTaggerT "{{.A}}" components) = inl cs ∧
    cs !! "B" = Some tag.NilTagger ∧
    (NoDup (tag.Name <$> components) ∧
     dom cs = list_to_set (tag.Name <$> components) ∧
     Forall (λ tc, ∃ tagger,
               tag.CreateComponents_case K0 (runCtx EmptyString [])
                 (tag.Name tc) (tag.Component tc) = inl tagger ∧
               cs !! tag.Name tc = Some tagger) components).
Proof.
  eexists. split; [vm_compute; reflexivity|]. split; [vm_compute; reflexivity|].
  apply (CreateComponents_returns_all_components K0 (runCtx EmptyString [])
           (tag.Build_CustomTemplateTaggerT "{{.A}}" components)).
  vm_compute; reflexivity.
Defined.

Lemma CreateComponents_errors_are_its_own_witness :
  ∃ tc, tc ∈ components ++ components ∧
        componentError K0 (tag.Name tc) (tag.Component tc)
          (Error "multiple components with name A").
Proof.
  apply (CreateComponents_errors_are_its_own K0 (runCtx EmptyString [])
           (tag.Build_CustomTemplateTaggerT "{{.A}}" (components ++ components))).
  vm_compute; reflexivity.
Defined.

Lemma mux0_made : tag.NewTaggerMux K0 (runCtx EmptyString pipelines) = Return mux0.
Proof. vm_compute; reflexivity. Qed.

Lemma NewTaggerMux_last_pipeline_wins_witness :
  tag.allTaggersByImageName mux0 !! "app" =
    taggersOf K0 (runCtx EmptyString pipelines)
      <$> last (filter (declares "app") pipelines) ∧
  tag.byImageName mux0 !! "app" =
    last (filter (declares "app") pipelines)
      ≫= (λ p, head (taggersOf K0 (runCtx EmptyString pipelines) p)).
Proof.
  apply (NewTaggerMux_last_pipeline_wins K0 (runCtx EmptyString pipelines) mux0 "app").
  exact mux0_made.
Defined.

Lemma NewTaggerMux_default_is_first_of_all_witness :
  match tag.allTaggersByImageName mux0 !! "db" with
  | Some ts => ∃ t rest, ts = t :: rest ∧ tag.byImageName mux0 !! "db" = Some t
  | None => tag.byImageName mux0 !! "db" = None
  end.
Proof.
  apply (NewTaggerMux_default_is_first_of_all K0 (runCtx EmptyString pipelines)
           mux0 "db").
  exact mux0_made.
Defined.

Lemma NewTaggerMux_slices_witness :
  tag.taggers mux0 =
    replicate 2 tag.NilTagger ++
    ((λ p, default tag.NilTagger
             (head (taggersOf K0 (runCtx EmptyString pipelines) p)))
       <$> pipelines) ∧
  tag.allTaggers mux0 =
    replicate 2 [] ++ (taggersOf K0 (runCtx EmptyString pipelines) <$> pipelines) ∧
  length (tag.taggers mux0) = 2 * 2 ∧
  length (tag.allTaggers mux0) = 2 * 2.
Proof.
  apply (NewTaggerMux_slices K0 (runCtx EmptyString pipelines) mux0).
  exact mux0_made.
Defined.

Lemma GenerateTag_calls_first_of_GenerateTags_witness :
  (tag.GenerateTag K0 mux0 tt db).2 = take 1 (tag.GenerateTags K0 mux0 tt db).2.
Proof.
  apply (GenerateTag_calls_first_of_GenerateTags K0
           (runCtx EmptyString pipelines) mux0 tt db).
  exact mux0_made.
Defined.

Lemma undeclared_image_has_no_tagger_witness :
  tag.GenerateTag K0 mux0 tt {| tag.ImageName := "web" |} =
    (Fail (Error ("no valid tagger found for artifact: " +:+ tag.Quote K0 "web")),
     []) ∧
  tag.GenerateTags K0 mux0 tt {| tag.ImageName := "web" |} =
    (Fail (Error ("no valid taggers found for artifact: " +:+ tag.Quote K0 "web")),
     []).
Proof.
  apply (undeclared_image_has_no_tagger K0 (runCtx EmptyString pipelines) mux0 tt
           {| tag.ImageName := "web" |}).
  - exact mux0_made.
  - repeat constructor; vm_compute; intros H; by repeat
      (apply elem_of_cons in H as [H|H]; [discriminate H|]);
      apply not_elem_of_nil in H.
Defined.

Lemma GenerateTags_one_tag_per_tagger_witness :
  Forall2 (gives K0 tt app)
    [tag.ChecksumTagger; tag.CustomTagTagger "v9"] ["app:sha"; "v9"] ∧
  [tag.CallGenerateTag tag.ChecksumTagger tt app;
   tag.CallGenerateTag (tag.CustomTagTagger "v9") tt app] =
    generateTagCalls tt app [tag.ChecksumTagger; tag.CustomTagTagger "v9"].
Proof.
  apply (GenerateTags_one_tag_per_tagger K0 muxOk tt app).
  - vm_compute; reflexivity.
  - vm_compute; reflexivity.
Defined.

Lemma GenerateTags_stops_at_first_failure_witness :
  failure (tag.GenerateTags K0 mux0 tt db).1
    = Some (inl (Error "not a git repository")) ∧
  (tag.GenerateTags K0 mux0 tt db).2 =
    generateTagCalls tt db ([tag.ChecksumTagger] ++ [foreign "git:v"]).
Proof.
  apply (GenerateTags_stops_at_first_failure K0 mux0 tt db
           [tag.ChecksumTagger] (foreign "git:v") []).
  - vm_compute; reflexivity.
  - repeat constructor. exists "db:sha". split; [discriminate|reflexivity].
  - discriminate.
  - vm_compute; reflexivity.
Defined.
End ConcreteTag.

Section ConcreteDocker.
Import DockerScenario.
#[local] Existing Instance DockerScenario.handles.

Lemma allFetched_two :
  allFetched K0 [amd64; arm64] ["app-amd64"; "app-arm64"]
    ["image of app-amd64"; "image of app-arm64"].
Proof. split; repeat constructor. Qed.

Lemma CreateManifestList_returns_digest_of_written_index_witness :
  ∃ refs imgs targetRef h parsed,
    allFetched K0 [amd64; arm64] refs imgs ∧
    docker.name_ParseReference K0 "registry/app" = inl targetRef ∧
    docker.remote_WriteIndex K0 targetRef (indexOf K0 [amd64; arm64] imgs) = None ∧
    docker.Digest K0 (indexOf K0 [amd64; arm64] imgs) = inl h ∧
    docker.ParseReference K0 "registry/app" = inl parsed ∧
    "registry/app:latest@sha256:image of app-amd64" =
      docker.BaseName parsed +:+ ":" +:+ docker.Tag parsed +:+ "@"
      +:+ docker.HashString K0 h ∧
    [docker.CallRemoteImage "app-amd64"; docker.CallRemoteImage "app-arm64";
     docker.CallWriteIndex "registry/app"
       [("image of app-amd64", "linux/amd64"); ("image of app-arm64", "linux/arm64")];
     docker.CallLogPrintf
       ("Created ManifestList for image registry/app. "
        +:+ "Digest: sha256:image of app-amd64" +:+ docker.newline)]
    = fetches refs ++
      [docker.CallWriteIndex targetRef (indexOf K0 [amd64; arm64] imgs);
       docker.CallLogPrintf (createdLine K0 targetRef h)].
Proof.
  apply (CreateManifestList_returns_digest_of_written_index K0 [amd64; arm64]
           "registry/app").
  vm_compute; reflexivity.
Defined.

Lemma CreateManifestList_stops_at_first_failed_image_witness :
  docker.CreateManifestList K0 ([amd64; arm64] ++ gone :: [amd64]) "registry/app" =
    (Fail (Error "manifest unknown"),
     fetches (["app-amd64"; "app-arm64"] ++ ["gone"])).
Proof.
  apply (CreateManifestList_stops_at_first_failed_image K0 [amd64; arm64] gone
           [amd64] "registry/app" ["app-amd64"; "app-arm64"]
           ["image of app-amd64"; "image of app-arm64"]).
  - exact allFetched_two.
  - right. exists "gone". repeat split.
Defined.

Lemma CreateManifestList_digest_error_after_write_witness :
  docker.CreateManifestList K0 [] "registry/app" =
    (Fail (Error "no manifests"),
     fetches [] ++ [docker.CallWriteIndex "registry/app" (indexOf K0 [] [])]).
Proof.
  apply (CreateManifestList_digest_error_after_write K0 [] "registry/app" [] []
           "registry/app" (Error "no manifests")).
  - split; constructor.
  - reflexivity.
  - reflexivity.
  - reflexivity.
Defined.

Lemma CreateManifestList_second_parse_error_after_write_witness :
  docker.CreateManifestList K0 [amd64; arm64] "registry/app:" =
    (Fail (Error "invalid tag"),
     fetches ["app-amd64"; "app-arm64"] ++
     [docker.CallWriteIndex "registry/app:"
        (indexOf K0 [amd64; arm64] ["image of app-amd64"; "image of app-arm64"]);
      docker.CallLogPrintf
        (createdLine K0 "registry/app:" "image of app-amd64")]).
Proof.
  apply (CreateManifestList_second_parse_error_after_write K0 [amd64; arm64]
           "registry/app:" ["app-amd64"; "app-arm64"]
           ["image of app-amd64"; "image of app-arm64"] "registry/app:"
           "image of app-amd64" (Error "invalid tag")).
  - exact allFetched_two.
  - reflexivity.
  - reflexivity.
  - reflexivity.
  - reflexivity.
Defined.
End ConcreteDocker.
